(** * Siconos documentation tools: [docs/gendoctools/common.py]

    A shallow embedding of the helper functions of [common.py] and of the
    Python string primitives they call, followed by the properties of the
    documentation-generation helpers that the repository's specification
    states.

    Conventions of the embedding.
    - A Python [str] is a list of characters; a character is a code point
      below U+0100 ([ascii]: ASCII and Latin-1), classified as Python
      classifies this range ([str.isspace], [str.isupper], [str.lower]).
      Every statement below is about strings of such characters.
    - A file store maps a path to the text the file stores; reading in
      text mode applies the universal-newlines translation, writing
      stores the text as it is (the line separator is the newline).
    - Python exceptions are values of [exn]; a function that may raise
      returns a [result].
    - A dictionary whose order is irrelevant is a [gmap]; the unpickled
      formula dictionaries, which are iterated, are association lists.
    - A directory is the list of the names of its entries. *)

From Stdlib Require Import Ascii ZArith Lia.
From stdpp Require Import base list strings gmap pretty.

Local Open Scope Z_scope.

(** ** Python strings *)

Abbreviation str := (list ascii).

(** String literals of the source. *)
Definition py (s : string) : str := String.list_ascii_of_string s.

Definition code (c : ascii) : N := N_of_ascii c.

Definition between (lo hi : N) (c : ascii) : bool :=
  ((lo <=? code c) && (code c <=? hi))%N.

(** [str.isspace] of one character: TAB..CR, FS..US, SPACE, NEL, NBSP. *)
Definition isspace (c : ascii) : bool :=
  between 9 13 c || between 28 32 c || (code c =? 133)%N || (code c =? 160)%N.

(** [str.isupper] of one character below U+0100: A..Z and the Latin-1
    capitals. *)
Definition isupper (c : ascii) : bool :=
  between 65 90 c || between 192 214 c || between 216 222 c.

(** [str.lower] of one character below U+0100. *)
Definition lower (c : ascii) : ascii :=
  if isupper c then ascii_of_N (code c + 32) else c.

(** [s.startswith(p)] *)
Fixpoint startswith (p s : str) : bool :=
  match p, s with
  | [], _ => true
  | _ :: _, [] => false
  | a :: p', b :: s' => Ascii.eqb a b && startswith p' s'
  end.

(** [sep.join(parts)] *)
Fixpoint join (sep : str) (parts : list str) : str :=
  match parts with
  | [] => []
  | [x] => x
  | x :: rest => x ++ sep ++ join sep rest
  end.

(** [s.lstrip()], [s.rstrip()], [s.strip()] *)
Fixpoint lstrip (s : str) : str :=
  match s with
  | c :: s' => if isspace c then lstrip s' else s
  | [] => []
  end.

Definition rstrip (s : str) : str := reverse (lstrip (reverse s)).

Definition strip (s : str) : str := rstrip (lstrip s).

(** The scan of [s.replace(old, new)] for a non-empty [old]: left to
    right, an occurrence found is replaced and its characters skipped
    ([skip] counts those still to skip). *)
Fixpoint replace_from (old new : str) (skip : nat) (s : str) : str :=
  match s with
  | [] => []
  | c :: s' =>
      match skip with
      | S k => replace_from old new k s'
      | O => if startswith old s
             then new ++ replace_from old new (length old - 1) s'
             else c :: replace_from old new 0 s'
      end
  end.

(** [s.replace(old, new)]; an empty [old] matches before every character
    and at the end. *)
Definition replace (old new s : str) : str :=
  match old with
  | [] => new ++ flat_map (fun c => c :: new) s
  | _ :: _ => replace_from old new 0 s
  end.

(** [s.count(sub)]: the number of non-overlapping occurrences. *)
Fixpoint count_from (sub : str) (skip : nat) (s : str) : Z :=
  match s with
  | [] => 0
  | c :: s' =>
      match skip with
      | S k => count_from sub k s'
      | O => if startswith sub s
             then 1 + count_from sub (length sub - 1) s'
             else count_from sub 0 s'
      end
  end.

Definition count (sub s : str) : Z :=
  match sub with
  | [] => Z.of_nat (length s) + 1
  | _ :: _ => count_from sub 0 s
  end.

(** [s.split(sep)] for a non-empty [sep] (Python raises ValueError for an
    empty one, see [split]). *)
Fixpoint split_from (sep : str) (skip : nat) (s : str) : list str :=
  match s with
  | [] => [[]]
  | c :: s' =>
      match skip with
      | S k => split_from sep k s'
      | O => if startswith sep s
             then [] :: split_from sep (length sep - 1) s'
             else match split_from sep 0 s' with
                  | piece :: rest => (c :: piece) :: rest
                  | [] => [[c]]
                  end
      end
  end.

(** Index normalisation of slices and of the [start] argument of [find]:
    a negative index counts from the end, and the result is clamped to
    [0, len]. *)
Definition clamp_index (len i : Z) : Z :=
  if i <? 0 then Z.max 0 (i + len) else Z.min i len.

(** [s[i:j]] *)
Definition slice (s : str) (i j : Z) : str :=
  let n := Z.of_nat (length s) in
  let a := clamp_index n i in
  let b := clamp_index n j in
  take (Z.to_nat (b - a)) (drop (Z.to_nat a) s).

(** [s[i:]] *)
Definition slice_from (s : str) (i : Z) : str :=
  drop (Z.to_nat (clamp_index (Z.of_nat (length s)) i)) s.

(** The search of [s.find(sub, start)]: [s] is the part of the string
    that begins at index [i]. *)
Fixpoint find_at (sub s : str) (i : nat) : Z :=
  if startswith sub s then Z.of_nat i
  else match s with
       | [] => -1
       | _ :: s' => find_at sub s' (S i)
       end.

(** [s.find(sub, start)] *)
Definition find (sub s : str) (start : Z) : Z :=
  let n := Z.of_nat (length s) in
  let a := if start <? 0 then Z.max 0 (start + n) else start in
  if n <? a then -1 else find_at sub (drop (Z.to_nat a) s) (Z.to_nat a).

(** The search of [s.rfind(sub)]: the highest index of an occurrence. *)
Fixpoint rfind_at (sub s : str) (i : nat) : Z :=
  match s with
  | [] => if startswith sub [] then Z.of_nat i else -1
  | _ :: s' =>
      let r := rfind_at sub s' (S i) in
      if 0 <=? r then r
      else if startswith sub s then Z.of_nat i else -1
  end.

(** [s.rfind(sub)] *)
Definition rfind (sub s : str) : Z := rfind_at sub s 0.

(** [s.split()]: the maximal runs of non-space characters. *)
Fixpoint split_ws_go (cur : option str) (s : str) : list str :=
  match s with
  | [] => option_list (reverse <$> cur)
  | c :: s' =>
      if isspace c
      then option_list (reverse <$> cur) ++ split_ws_go None s'
      else split_ws_go (Some (c :: default [] cur)) s'
  end.

Definition split_ws (s : str) : list str := split_ws_go None s.

(** What a file opened in text mode gives to read: the stored text with
    every CR LF and every other CR turned into a newline (universal
    newlines). *)
Fixpoint universal_newlines (s : str) : str :=
  match s with
  | [] => []
  | c :: s' =>
      if Ascii.eqb c "013" then
        "010"%char ::
          match s' with
          | c' :: s'' =>
              if Ascii.eqb c' "010" then universal_newlines s''
              else universal_newlines s'
          | [] => []
          end
      else c :: universal_newlines s'
  end.

(** [f.readlines()] on the text [s] that the file gives to read: the lines,
    each with its terminating newline (the last one may lack it). *)
Fixpoint readlines_go (cur : str) (s : str) : list str :=
  match s with
  | [] => match cur with [] => [] | _ => [reverse cur] end
  | c :: s' =>
      if Ascii.eqb c "010"
      then reverse (c :: cur) :: readlines_go [] s'
      else readlines_go (c :: cur) s'
  end.

Definition readlines (s : str) : list str := readlines_go [] s.

(** ** Exceptions *)

Inductive exn : Set :=
  | KeyError
  | IndexError
  | UnboundLocalError
  | AssertionError
  | ValueError
  | FileNotFoundError.

Inductive result (A : Type) : Type :=
  | Ok (a : A)
  | Raise (e : exn).

Arguments Ok {A} a.
Arguments Raise {A} e.

(** Sequencing: the first exception raised ends the computation. *)
Global Instance result_ret : MRet result := fun A a => Ok a.

Global Instance result_bind : MBind result := fun A B k r =>
  match r with
  | Ok a => k a
  | Raise e => Raise e
  end.

(** [l[0]] *)
Definition first_item {A} (l : list A) : result A :=
  match l with
  | x :: _ => Ok x
  | [] => Raise IndexError
  end.

(** [l[i]] for a non-negative [i] *)
Definition get_item {A} (l : list A) (i : nat) : result A :=
  match l !! i with
  | Some x => Ok x
  | None => Raise IndexError
  end.

(** [assert b] *)
Definition assert_ (b : bool) : result unit :=
  if b then Ok tt else Raise AssertionError.

(** [s.split(sep)] *)
Definition split (sep s : str) : result (list str) :=
  match sep with
  | [] => Raise ValueError
  | _ :: _ => Ok (split_from sep 0 s)
  end.

(** ** Math Normalizer: [find_and_replace_math] *)

Definition find_and_replace_math (content : str) : str :=
  if 1 <? count (py "$") content then
    let start := find (py "$") content 0 in
    let end_ := find (py "$") content (start + 1) in
    let doxy_latex := slice content start (end_ + 1) in
    let rst_latex := py ":math:`" ++ strip (slice doxy_latex 1 (-1)) ++ py "`" in
    replace doxy_latex rst_latex content
  else content.

(** [old] occurs in [s] as a substring. *)
Definition occurs (old s : str) : Prop := exists a b, s = a ++ old ++ b.

Definition dollar : ascii := "$".

(** The inline role that stands for the formula [mid]. *)
Definition math_role (mid : str) : str := py ":math:`" ++ strip mid ++ py "`".

(** The number of characters of [s] equal to [d]. *)
Definition occurrences (d : ascii) (s : str) : nat :=
  length (List.filter (Ascii.eqb d) s).

(** ** Identifier Case Folder: [replace_uppercase_letters] *)

Definition replace_uppercase_letters (filename : str) : str :=
  flat_map (fun c => if isupper c then py "_" ++ [lower c] else [c]) filename.

(** ** Paths and directories *)

(** [Path.name] of a normalised path: its final component. *)
Definition path_name (p : str) : str := slice_from p (rfind (py "/") p + 1).

(** [Path.stem]: the final component without its last suffix. *)
Definition path_stem (p : str) : str :=
  let name := path_name p in
  let i := rfind (py ".") name in
  if (0 <? i) && (i <? Z.of_nat (length name) - 1) then slice name 0 i else name.

(** Shell-style matching of a file name against a pattern made of
    literal characters, [?] (any one character) and [*] (any run of
    characters). *)
Fixpoint fnmatch (pat : str) : str -> bool :=
  match pat with
  | [] => fun name => match name with [] => true | _ :: _ => false end
  | c :: pat' =>
      if Ascii.eqb c "*" then
        fix star (name : str) : bool :=
          fnmatch pat' name
          || match name with [] => false | _ :: name' => star name' end
      else if Ascii.eqb c "?" then
        fun name => match name with [] => false | _ :: name' => fnmatch pat' name' end
      else
        fun name =>
          match name with
          | [] => false
          | x :: name' => Ascii.eqb c x && fnmatch pat' name'
          end
  end.

(** The patterns this model interprets: no bracket expression and no
    [**] (whose treatment inside a component depends on the version of
    pathlib). *)
Definition simple_pattern (pat : str) : bool :=
  negb (bool_decide ("["%char ∈ pat)) && (count (py "**") pat =? 0).

Definition has_wildcard (pat : str) : bool :=
  bool_decide ("*"%char ∈ pat) || bool_decide ("?"%char ∈ pat).

(** [xml_path.glob(pattern)] for a one-component pattern, on the directory
    whose entries are [entries] (in the order the directory is scanned):
    the names of the entries selected.  A pattern without wildcard selects
    the entry of that name when it exists.  [None] stands for a pattern
    outside [simple_pattern]. *)
Definition glob (entries : list str) (pattern : str) : option (list str) :=
  if simple_pattern pattern then
    Some (if has_wildcard pattern
          then List.filter (fnmatch pattern) entries
          else if bool_decide (pattern ∈ entries) then [pattern] else [])
  else None.

(** ** XML File Locator: [get_xml_files] *)

(** The mangling of the stem [fnwe] that the three patterns are built
    from. *)
Definition mangle (fnwe : str) (case_sense_names : bool) : str :=
  let fnwe := replace (py "_") (py "__") fnwe in
  if negb case_sense_names then replace_uppercase_letters fnwe else fnwe.

Definition get_xml_files (header_name : str) (xml_path : list str)
    (case_sense_names : bool) : option (list str) :=
  let fnwe := mangle (path_stem header_name) case_sense_names in
  classfiles ← glob xml_path (py "class" ++ fnwe ++ py ".xml");
  structfiles ← glob xml_path (py "struct" ++ fnwe ++ py ".xml");
  files8h ← glob xml_path (fnwe ++ py "_8h*.xml");
  Some (classfiles ++ structfiles ++ files8h).

(** ** Doxygen Config Parser: [parse_doxygen_config] *)

Definition newline : ascii := "010".

(** The variables of the loop: the dictionary [result] and the list
    [backup], which is unbound until a line with [=] has been read. *)
Record config_state : Type := ConfigState {
  entries : gmap str str;
  backup : option (list str)
}.

Definition initial_state : config_state :=
  {| entries := ∅; backup := None |}.

(** The filter of the comprehension. *)
Definition is_kept (n : str) : bool :=
  negb (startswith (py "#") n) && negb (startswith [newline] n).

(** The key expression [res[0].rsplit()[0]]. *)
Definition key_of (res : list str) : result str :=
  lhs ← get_item res 0;
  first_item (split_ws lhs).

(** The body of the loop, for one stripped line [d]. *)
Definition config_line (st : config_state) (d : str) : result config_state :=
  if 0 <? count (py "=") d then
    res ← split (py "=") d;
    value ← get_item res 1;
    key ← key_of res;
    Ok {| entries := <[key := value]> (entries st); backup := Some res |}
  else
    match backup st with
    | None => Raise UnboundLocalError
    | Some res =>
        key ← key_of res;
        match entries st !! key with
        | None => Raise KeyError
        | Some value =>
            Ok {| entries := <[key := value ++ d]> (entries st);
                  backup := Some res |}
        end
    end.

Fixpoint run_lines (st : config_state) (conf : list str) : result config_state :=
  match conf with
  | [] => Ok st
  | d :: conf' => st' ← config_line st d; run_lines st' conf'
  end.

(** The parser on the lines read from the file. *)
Definition parse_lines (lines : list str) : result config_state :=
  run_lines initial_state (strip <$> List.filter is_kept lines).

(** [parse_doxygen_config] on a file that stores the text [content]. *)
Definition parse_doxygen_config (content : str) : result (gmap str str) :=
  st ← parse_lines (readlines (universal_newlines content));
  Ok (entries st).

(** The key under which a continuation line is stored. *)
Definition current_key (st : config_state) : option str :=
  match backup st with
  | Some (lhs :: _) => head (split_ws lhs)
  | _ => None
  end.

(** ** Formula Escaper: [filter_dot_in_xml_formulas] *)

(** The two literals of the source: two backslashes and [dot], one
    backslash and [dot]. *)
Definition escaped_dot : str := py "\\dot".
Definition plain_dot : str := py "\dot".

(** A file store holds the text that each file stores, by normalised
    path.  [open(path).read()] in text mode: *)
Definition read_text (fs : gmap str str) (path : str) : result str :=
  match fs !! path with
  | Some stored => Ok (universal_newlines stored)
  | None => Raise FileNotFoundError
  end.

(** [open(path, 'w').write(text)] in text mode, where the line separator
    of the system is the newline. *)
Definition write_text (fs : gmap str str) (path text : str) : gmap str str :=
  <[path := text]> fs.

(** [shutil.move(src, dst)] between files: [dst] receives what [src]
    stores. *)
Definition move (src dst : str) (fs : gmap str str) : result (gmap str str) :=
  match fs !! src with
  | Some stored => Ok (<[dst := stored]> (delete src fs))
  | None => Raise FileNotFoundError
  end.

Definition filter_dot_in_xml_formulas (xmlfile : str) (fs : gmap str str)
    : result (gmap str str) :=
  let fileout := path_stem xmlfile ++ py ".tmp" in
  lines ← read_text fs xmlfile;
  let newlines := replace escaped_dot plain_dot lines in
  move fileout xmlfile (write_text fs fileout newlines).

(** ** Compound Info Extractor: [get_xml_compound_infos] *)

#[warnings="-register-all"]
Inductive element : Type :=
  Element (tag : str) (attrib : gmap str str) (text : option str)
          (children : list element) (tail : option str).

Definition tag_of (e : element) : str := let 'Element t _ _ _ _ := e in t.
Definition attrib_of (e : element) : gmap str str := let 'Element _ a _ _ _ := e in a.
Definition text_of (e : element) : option str := let 'Element _ _ x _ _ := e in x.
Definition children_of (e : element) : list element := let 'Element _ _ _ c _ := e in c.
Definition tail_of (e : element) : option str := let 'Element _ _ _ _ x := e in x.

(** [e.findall(tag)] and [e.find(tag)] for a plain tag: the children of
    that tag, the first of them. *)
Definition findall (e : element) (t : str) : list element :=
  List.filter (fun c => bool_decide (tag_of c = t)) (children_of e).

Definition find_child (e : element) (t : str) : option element :=
  head (findall e t).

(** [''.join(e.itertext())] *)
Fixpoint itertext (e : element) : str :=
  let 'Element _ _ x cs _ := e in
  default [] x ++ flat_map (fun c => itertext c ++ default [] (tail_of c)) cs.

(** The bytes of the ASCII writer, decoded: a character above 127 is
    written as a character reference. *)
Definition charref (c : ascii) : str :=
  if (code c <? 128)%N then [c] else py "&#" ++ py (pretty (code c)) ++ py ";".

(** [ET.tostring(e, method='text').decode()] (as xml.etree serialises). *)
Definition tostring_text (e : element) : str :=
  flat_map charref (itertext e ++ default [] (tail_of e)).

Definition get_xml_compound_infos (compound : element)
    : result (option str * str * str) :=
  kind ← match attrib_of compound !! py "kind" with
          | Some k => Ok k
          | None => Raise KeyError
          end;
  let names := findall compound (py "compoundname") in
  let descr := findall compound (py "briefdescription") in
  _ ← assert_ (length names =? 1)%nat;
  _ ← assert_ (length descr =? 1)%nat;
  d0 ← get_item descr 0;
  let res :=
    match find_child d0 (py "para") with
    | Some content =>
        let res := tostring_text content in
        let res := join (newline :: py "    ") (split_from [newline] 0 res) in
        find_and_replace_math res
    | None => []
    end in
  n0 ← get_item names 0;
  Ok (text_of n0, kind, res).

(** ** Latex Placeholder Substitutor: [replace_latex] *)

Record formula_record : Type := FormulaRecord {
  latex : str;
  label : str
}.

(** [str(form)] of an integer id. *)
Definition str_of_int (form : Z) : str := py (pretty form).

(** The placeholder [idf] of the formula [form]. *)
Definition placeholder (form : Z) : str :=
  py "FORMULA" ++ str_of_int form ++ py "_".

(** One-character line boundaries of [str.splitlines]. *)
Definition is_linebreak (c : ascii) : bool :=
  between 10 13 c || between 28 30 c || (code c =? 133)%N.

(** [s.splitlines(True)] *)
Fixpoint splitlines_go (cur : str) (s : str) : list str :=
  match s with
  | [] => match cur with [] => [] | _ => [reverse cur] end
  | c :: s' =>
      if is_linebreak c then
        match s' with
        | c' :: s'' =>
            if Ascii.eqb c "013" && Ascii.eqb c' "010"
            then reverse (c' :: c :: cur) :: splitlines_go [] s''
            else reverse (c :: cur) :: splitlines_go [] s'
        | [] => [reverse (c :: cur)]
        end
      else splitlines_go (c :: cur) s'
  end.

Definition splitlines_keepends (s : str) : list str := splitlines_go [] s.

(** [textwrap.indent(text, prefix)] *)
Definition textwrap_indent (text prefix : str) : str :=
  flat_map (fun line => match strip line with
                        | [] => line
                        | _ :: _ => prefix ++ line
                        end)
           (splitlines_keepends text).

(** The text that one line receives for [idf]. *)
Definition replace_in_line (idf formula formula_type line : str) : str :=
  if bool_decide (formula_type = py "inline") then replace idf formula line
  else
    let indent := (length line - length (lstrip line))%nat in
    replace idf (textwrap_indent formula (List.repeat " "%char indent)) line.

(** The body of the loop over the formulas of one dictionary. *)
Definition substitute_formula (source_lines : list str)
    (entry : Z * formula_record) : list str :=
  let idf := placeholder entry.1 in
  let formula := replace (py "\") (py "\\") (latex entry.2) in
  let formula_type := label entry.2 in
  replace_in_line idf formula formula_type <$> source_lines.

(** The substitution loops of [replace_latex], on the lines of the file
    and the unpickled dictionaries (each in its iteration order). *)
Definition replace_latex_lines (dicts : list (list (Z * formula_record)))
    (source_lines : list str) : list str :=
  foldl (foldl substitute_formula) source_lines dicts.

(** ** Notions used in the statements *)

Definition equals : ascii := "=".
Definition hash : ascii := "#".

(** The text of the two-line configuration file of the specification. *)
Definition two_line_config : str :=
  py "OUTPUT_DIRECTORY = build" ++ [newline] ++ py "  continued" ++ [newline].

(** The underscore doubling alone. *)
Definition double_underscores (s : str) : str := replace (py "_") (py "__") s.

(** The composite in the order of the specification: case folding, then
    underscore doubling. *)
Definition fold_then_double (s : str) : str :=
  double_underscores (replace_uppercase_letters s).

(** The characters of a printed integer: the digits and the sign. *)
Definition id_char (c : ascii) : bool := between 48 57 c || (code c =? 45)%N.

(** The text put in place of a placeholder of [line]. *)
Definition inserted_text (formula formula_type line : str) : str :=
  if bool_decide (formula_type = py "inline") then formula
  else textwrap_indent formula
         (List.repeat " "%char (length line - length (lstrip line))).

Definition carriage_return : ascii := "013".

(** Three backslashes and [dot]. *)
Definition overescaped_dot : str := py "\\\dot".

(** The value a returned mapping holds for [key]. *)
Definition value_at (key : str) (r : result (gmap str str)) : option str :=
  match r with
  | Ok m => m !! key
  | Raise _ => None
  end.

(** The key that [backup] designates has an entry. *)
Definition well_keyed (st : config_state) : Prop :=
  forall res, backup st = Some res ->
    exists key, key_of res = Ok key /\ is_Some (entries st !! key).

(** What the mangling makes of one character. *)
Definition mangle_char (case_sense_names : bool) (c : ascii) : str :=
  if Ascii.eqb "_" c then py "__"
  else if negb case_sense_names && isupper c then py "_" ++ [lower c]
  else [c].

(** The characters that a glob pattern interprets. *)
Definition is_glob_char (c : ascii) : bool :=
  Ascii.eqb c "*" || Ascii.eqb c "?" || Ascii.eqb c "[".

(** The capital that [lower] came from. *)
Definition raise_case (c : ascii) : ascii := ascii_of_N (code c - 32).

(** A key as the parser stores it: a non-empty run of characters that
    are neither whitespace nor [=]. *)
Definition token_key (k : str) : Prop :=
  k <> [] /\ Forall (fun c => isspace c = false /\ c <> equals) k.

(** A value as the parser stores it: without [=] and without newline. *)
Definition plain_value (v : str) : Prop := (equals ∉ v) /\ (newline ∉ v).

Definition plain_entries (st : config_state) : Prop :=
  forall k v, entries st !! k = Some v -> token_key k /\ plain_value v.

(** [old in s], decided. *)
Fixpoint occursb (old s : str) : bool :=
  startswith old s
  || match s with
     | [] => false
     | _ :: s' => occursb old s'
     end.

(** The text of the first [para] child of a brief description, with the
    tail of that child; the empty string without [para] child. *)
Definition para_text (brief : element) : str :=
  match find_child brief (py "para") with
  | Some content => itertext content ++ default [] (tail_of content)
  | None => []
  end.

(** The description drawn from a brief description: the text of its first
    [para] child, four spaces put behind every newline, then the math
    normalizer; the empty string without [para] child. *)
Definition brief_description (brief : element) : str :=
  match find_child brief (py "para") with
  | Some _ =>
      find_and_replace_math
        (replace [newline] (newline :: py "    ") (para_text brief))
  | None => []
  end.

(** Text of ASCII characters only. *)
Definition ascii_only (s : str) : Prop := Forall (fun c => (code c < 128)%N) s.

(** What the formula [entry] makes of one line. *)
Definition substitute_in_line (line : str) (entry : Z * formula_record) : str :=
  replace_in_line (placeholder entry.1)
    (replace (py "\") (py "\\") (latex entry.2)) (label entry.2) line.

(** What all the formulas, in their order, make of one line. *)
Definition rewrite_line (dicts : list (list (Z * formula_record)))
    (line : str) : str :=
  foldl (foldl substitute_in_line) line dicts.

(** ** Facts about the string primitives *)

Lemma startswith_prefix (p s : str) : startswith p s = true <-> p `prefix_of` s.
Proof.
  revert s. induction p as [|a p IH]; intros s; simpl.
  - split; [intros _; apply prefix_nil | done].
  - destruct s as [|b s].
    + split; [done | intros [k Hk]; discriminate].
    + rewrite andb_true_iff, Ascii.eqb_eq, IH. split.
      * intros [-> Hp]. by apply prefix_cons.
      * intros [k Hk]. injection Hk as -> ->. split; [done | by eexists].
Qed.

Lemma startswith_app (p t : str) : startswith p (p ++ t) = true.
Proof. apply startswith_prefix. by exists t. Qed.

Lemma startswith_false (p s : str) :
  startswith p s = false <-> ~ p `prefix_of` s.
Proof. rewrite <- startswith_prefix. by destruct (startswith p s). Qed.

Lemma occurs_cons (old : str) c s :
  occurs old (c :: s) <-> old `prefix_of` (c :: s) \/ occurs old s.
Proof.
  split.
  - intros [[|x a] [b H]]; simpl in H.
    + left. by exists b.
    + right. simplify_eq. by exists a, b.
  - intros [[b H] | [a [b H]]].
    + by exists [], b.
    + exists (c :: a), b. by rewrite H.
Qed.

Lemma occurs_nil (old : str) : occurs old [] <-> old = [].
Proof.
  split.
  - intros [a [b H]]. symmetry in H.
    apply app_eq_nil in H as [_ H]. by apply app_eq_nil in H as [H _].
  - intros ->. by exists [], [].
Qed.

Lemma occurs_app_r (old a s : str) : occurs old s -> occurs old (a ++ s).
Proof. intros [x [y ->]]. exists (a ++ x), y. by rewrite <- app_assoc. Qed.

(** After a match at the head of [c :: s], the scan resumes behind it. *)
Lemma drop_tail_of_match (old : str) c s t :
  old <> [] -> old ++ t = c :: s -> drop (length old - 1) s = t.
Proof.
  destruct old as [|o old']; [done|]. intros _ [= -> <-].
  simpl. rewrite Nat.sub_0_r. apply drop_app_length.
Qed.

Section scan.
Context (old : str) (Hold : old <> []).

Lemma replace_from_skip new k s :
  replace_from old new k s = replace_from old new 0 (drop k s).
Proof.
  revert k. induction s as [|c s IH]; intros [|k]; simpl; done.
Qed.

Lemma replace_unfold new s : replace old new s = replace_from old new 0 s.
Proof. unfold replace. by destruct old. Qed.

Lemma replace_nil new : replace old new [] = [].
Proof. by rewrite replace_unfold. Qed.

Lemma replace_match new t : replace old new (old ++ t) = new ++ replace old new t.
Proof.
  rewrite !replace_unfold.
  destruct (old ++ t) as [|c s] eqn:E.
  { by apply app_eq_nil in E as [? _]. }
  cbn [replace_from]. rewrite <- E at 1. rewrite startswith_app.
  rewrite replace_from_skip. do 2 f_equal. by apply (drop_tail_of_match old c).
Qed.

Lemma replace_nomatch new c s :
  startswith old (c :: s) = false ->
  replace old new (c :: s) = c :: replace old new s.
Proof. intros H. rewrite !replace_unfold. cbn [replace_from]. by rewrite H. Qed.

Lemma count_from_skip k s : count_from old k s = count_from old 0 (drop k s).
Proof.
  revert k. induction s as [|c s IH]; intros [|k]; simpl; done.
Qed.

Lemma count_unfold s : count old s = count_from old 0 s.
Proof. unfold count. by destruct old. Qed.

Lemma count_nil : count old [] = 0.
Proof. by rewrite count_unfold. Qed.

Lemma count_match t : count old (old ++ t) = 1 + count old t.
Proof.
  rewrite !count_unfold.
  destruct (old ++ t) as [|c s] eqn:E.
  { by apply app_eq_nil in E as [? _]. }
  cbn [count_from]. rewrite <- E at 1. rewrite startswith_app.
  rewrite count_from_skip. do 2 f_equal. by apply (drop_tail_of_match old c).
Qed.

Lemma count_nomatch c s :
  startswith old (c :: s) = false -> count old (c :: s) = count old s.
Proof. intros H. rewrite !count_unfold. cbn [count_from]. by rewrite H. Qed.

Lemma split_from_skip k s : split_from old k s = split_from old 0 (drop k s).
Proof.
  revert k. induction s as [|c s IH]; intros [|k]; simpl; done.
Qed.

Lemma split_from_match t :
  split_from old 0 (old ++ t) = [] :: split_from old 0 t.
Proof.
  destruct (old ++ t) as [|c s] eqn:E.
  { by apply app_eq_nil in E as [? _]. }
  cbn [split_from]. rewrite <- E at 1. rewrite startswith_app.
  rewrite split_from_skip. do 2 f_equal. by apply (drop_tail_of_match old c).
Qed.

Lemma split_from_nonempty k s : split_from old k s <> [].
Proof.
  revert k. induction s as [|c s IH]; intros [|k]; simpl; try done.
  destruct (startswith old (c :: s)); [done|].
  by destruct (split_from old 0 s).
Qed.

(** A string without occurrence of [old] is left as it is. *)
Lemma replace_no_occurrence new s : ~ occurs old s -> replace old new s = s.
Proof.
  induction s as [|c s IH]; intros H; [apply replace_nil|].
  rewrite occurs_cons in H.
  rewrite replace_nomatch.
  - f_equal. apply IH. tauto.
  - apply startswith_false. tauto.
Qed.
End scan.

(** *** A one-character needle *)

Section one_char.
Context (d : ascii).

Lemma startswith_char c s : startswith [d] (c :: s) = Ascii.eqb d c.
Proof. simpl. apply andb_true_r. Qed.

Lemma count_char_cons c s :
  count [d] (c :: s) = (if Ascii.eqb d c then 1 else 0) + count [d] s.
Proof.
  destruct (Ascii.eqb d c) eqn:E.
  - apply Ascii.eqb_eq in E as <-. by apply (count_match [d]).
  - apply count_nomatch; [done | by rewrite startswith_char].
Qed.

Lemma count_char_nonneg s : 0 <= count [d] s.
Proof.
  induction s as [|c s IH]; [done|].
  rewrite count_char_cons. destruct (Ascii.eqb d c); lia.
Qed.

Lemma count_char_app a b : count [d] (a ++ b) = count [d] a + count [d] b.
Proof.
  induction a as [|c a IH]; [by rewrite (count_nil [d])|].
  rewrite <- app_comm_cons, !count_char_cons, IH. lia.
Qed.

Lemma count_char_zero s : count [d] s = 0 <-> d ∉ s.
Proof.
  induction s as [|c s IH].
  - split; [intros _; apply not_elem_of_nil | done].
  - rewrite count_char_cons, not_elem_of_cons, <- IH.
    pose proof (count_char_nonneg s).
    destruct (Ascii.eqb d c) eqn:E.
    + apply Ascii.eqb_eq in E. split; [lia | tauto].
    + apply Ascii.eqb_neq in E. split; [intros; split; [done | lia] | lia].
Qed.

(** The first occurrence of [d], when there is one. *)
Lemma first_char_split s :
  0 < count [d] s ->
  exists pre t, s = pre ++ d :: t /\ (d ∉ pre) /\ count [d] s = 1 + count [d] t.
Proof.
  induction s as [|c s IH]; [done|].
  rewrite count_char_cons. destruct (Ascii.eqb d c) eqn:E.
  - apply Ascii.eqb_eq in E as <-. intros _.
    exists [], s. split_and!; [done | apply not_elem_of_nil | done].
  - apply Ascii.eqb_neq in E. intros H.
    destruct IH as (pre & t & -> & Hpre & Hc); [lia|].
    exists (c :: pre), t. split_and!; [done | | lia].
    rewrite not_elem_of_cons. tauto.
Qed.

Lemma find_at_char pre t i :
  (d ∉ pre) -> find_at [d] (pre ++ d :: t) i = Z.of_nat (i + length pre).
Proof.
  revert i. induction pre as [|c pre IH]; intros i Hpre.
  - cbn [app find_at]. rewrite startswith_char, Ascii.eqb_refl.
    f_equal. simpl. lia.
  - apply not_elem_of_cons in Hpre as [Hc Hpre].
    cbn [app find_at]. rewrite startswith_char.
    apply Ascii.eqb_neq in Hc. rewrite Hc, IH by done.
    f_equal. simpl. lia.
Qed.

Lemma replace_before_first x new pre t :
  (d ∉ pre) -> replace (d :: x) new (pre ++ t) = pre ++ replace (d :: x) new t.
Proof.
  induction pre as [|c pre IH]; intros Hpre; [done|].
  apply not_elem_of_cons in Hpre as [Hc Hpre].
  rewrite <- !app_comm_cons, replace_nomatch, IH; try done.
  simpl. apply Ascii.eqb_neq in Hc. by rewrite Hc.
Qed.
End one_char.

Lemma find_in_range sub s a :
  0 <= a <= Z.of_nat (length s) ->
  find sub s a = find_at sub (drop (Z.to_nat a) s) (Z.to_nat a).
Proof.
  intros Ha. unfold find.
  destruct (Z.ltb_spec a 0); [lia|].
  by destruct (Z.ltb_spec (Z.of_nat (length s)) a); [lia|].
Qed.

Lemma clamp_index_in_range n i : 0 <= i <= n -> clamp_index n i = i.
Proof. intros H. unfold clamp_index. destruct (Z.ltb_spec i 0); lia. Qed.

Lemma slice_middle (a x b : str) :
  slice (a ++ x ++ b) (Z.of_nat (length a)) (Z.of_nat (length a + length x)) = x.
Proof.
  unfold slice. rewrite !clamp_index_in_range by (rewrite !length_app; lia).
  rewrite Nat2Z.id, drop_app_length.
  replace (Z.to_nat _) with (length x) by lia.
  by rewrite take_app_length.
Qed.

Lemma slice_inner (c e : ascii) (x : str) : slice (c :: x ++ [e]) 1 (-1) = x.
Proof.
  unfold slice. cbn [length]. rewrite length_app. cbn [length].
  rewrite (clamp_index_in_range _ 1) by lia.
  unfold clamp_index. cbn [Z.ltb Z.compare].
  change (Z.to_nat 1) with 1%nat. cbn [drop].
  replace (Z.to_nat _) with (length x) by lia.
  by rewrite drop_0, take_app_length.
Qed.

(** *** The math normalizer on a string with two delimiters *)

Lemma find_and_replace_math_unchanged content :
  count [dollar] content <= 1 -> find_and_replace_math content = content.
Proof.
  intros H. unfold find_and_replace_math. change (py "$") with [dollar].
  by destruct (Z.ltb_spec 1 (count [dollar] content)); [lia|].
Qed.

Lemma find_and_replace_math_first_pair pre mid rest :
  (dollar ∉ pre) -> (dollar ∉ mid) ->
  find_and_replace_math (pre ++ dollar :: mid ++ dollar :: rest) =
  pre ++ math_role mid ++
    replace (dollar :: mid ++ [dollar]) (math_role mid) rest.
Proof.
  intros Hpre Hmid. unfold find_and_replace_math. change (py "$") with [dollar].
  set (content := pre ++ dollar :: mid ++ dollar :: rest).
  assert ((1 <? count [dollar] content) = true) as ->.
  { apply Z.ltb_lt. unfold content.
    rewrite count_char_app, count_char_cons, count_char_app, count_char_cons.
    rewrite Ascii.eqb_refl.
    pose proof (count_char_nonneg dollar pre).
    pose proof (count_char_nonneg dollar mid).
    pose proof (count_char_nonneg dollar rest). lia. }
  assert (find [dollar] content 0 = Z.of_nat (length pre)) as ->.
  { rewrite find_in_range by lia. unfold content.
    change (Z.to_nat 0) with 0%nat. rewrite drop_0.
    by rewrite find_at_char. }
  assert (find [dollar] content (Z.of_nat (length pre) + 1)
          = Z.of_nat (length pre + 1 + length mid)) as ->.
  { rewrite find_in_range.
    2:{ unfold content. rewrite length_app. cbn [length]. lia. }
    replace (Z.to_nat _) with (length pre + 1)%nat by lia.
    unfold content.
    rewrite (cons_middle dollar pre), app_assoc, drop_app_length'
      by (rewrite length_app; simpl; lia).
    rewrite find_at_char by done. lia. }
  assert (content = pre ++ (dollar :: mid ++ [dollar]) ++ rest) as Hc.
  { unfold content. simpl. by rewrite <- app_assoc. }
  replace (slice content _ _) with (dollar :: mid ++ [dollar]).
  2:{ rewrite Hc. symmetry.
      replace (Z.of_nat (length pre + 1 + length mid) + 1)
        with (Z.of_nat (length pre + length (dollar :: mid ++ [dollar]))).
      - apply slice_middle.
      - cbn [length]. rewrite length_app. simpl. lia. }
  rewrite slice_inner. fold (math_role mid).
  rewrite Hc, replace_before_first by done.
  by rewrite (replace_match (dollar :: mid ++ [dollar])).
Qed.

Lemma count_char_occurrences d s : count [d] s = Z.of_nat (occurrences d s).
Proof.
  unfold occurrences. induction s as [|c s IH]; [done|].
  rewrite count_char_cons, IH. cbn [List.filter].
  destruct (Ascii.eqb d c); cbn [length]; lia.
Qed.

(** C8: [find_and_replace_math] turns "energy $E=mc^2$ conserved" into
    "energy :math:`E=mc^2` conserved", and returns every string with zero
    or one [$] character unchanged. *)
Theorem find_and_replace_math_example_and_identity :
  find_and_replace_math (py "energy $E=mc^2$ conserved")
    = py "energy :math:`E=mc^2` conserved"
  /\ forall content : str,
       (occurrences dollar content <= 1)%nat ->
       find_and_replace_math content = content.
Proof.
  split; [by vm_compute|].
  intros content H. apply find_and_replace_math_unchanged.
  rewrite count_char_occurrences. lia.
Qed.

Lemma find_and_replace_math_example_and_identity_witness :
  (occurrences dollar (py "fee: 5$ per page") <= 1)%nat
  /\ find_and_replace_math (py "fee: 5$ per page") = py "fee: 5$ per page".
Proof.
  split.
  - vm_compute. lia.
  - apply (proj2 find_and_replace_math_example_and_identity).
    vm_compute. lia.
Defined.

(** The formula of the first pair is the only text searched for. *)
Lemma find_and_replace_math_on_repeated_pair :
  find_and_replace_math (py "$a$ and $a$") = py ":math:`a` and :math:`a`".
Proof. by vm_compute. Qed.

(** C1, refuted as stated: in "$a$ and $a$" the second pair is the text of
    the first one again and is converted with it, so that the output is
    not the input with its first pair alone rewritten. *)
Lemma later_identical_pair_is_converted :
  find_and_replace_math (py "$a$ and $a$") = py ":math:`a` and :math:`a`"
  /\ find_and_replace_math (py "$a$ and $a$") <> py ":math:`a` and $a$"
  /\ occurrences dollar (find_and_replace_math (py "$a$ and $a$")) = 0%nat.
Proof. by vm_compute. Qed.

(** C1, amended: a string with two or more [$] is the text before its
    first [$], the first delimited pair and a rest; the output keeps the
    text before, puts the role in place of the pair, and in the rest
    replaces every further occurrence of the text of the first pair
    (delimiters included) by the same role; when that text does not occur
    again, the rest, with all its later pairs, is the rest of the input. *)
Theorem find_and_replace_math_first_pair_and_its_copies (content : str) :
  (2 <= occurrences dollar content)%nat ->
  exists pre mid rest : str,
    content = pre ++ dollar :: mid ++ dollar :: rest
    /\ (dollar ∉ pre) /\ (dollar ∉ mid)
    /\ find_and_replace_math content =
         pre ++ math_role mid ++
           replace (dollar :: mid ++ [dollar]) (math_role mid) rest
    /\ (~ occurs (dollar :: mid ++ [dollar]) rest ->
        find_and_replace_math content = pre ++ math_role mid ++ rest).
Proof.
  intros H.
  destruct (first_char_split dollar content) as (pre & t & -> & Hpre & Hc).
  { rewrite count_char_occurrences. lia. }
  destruct (first_char_split dollar t) as (mid & rest & -> & Hmid & _).
  { rewrite count_char_occurrences in Hc. lia. }
  exists pre, mid, rest. split_and!; try done.
  - by apply find_and_replace_math_first_pair.
  - intros Hno. rewrite find_and_replace_math_first_pair by done.
    by rewrite replace_no_occurrence.
Qed.

Lemma find_and_replace_math_first_pair_and_its_copies_witness :
  exists pre mid rest : str,
    py "a $x$ b $y$" = pre ++ dollar :: mid ++ dollar :: rest
    /\ (dollar ∉ pre) /\ (dollar ∉ mid)
    /\ find_and_replace_math (py "a $x$ b $y$") =
         pre ++ math_role mid ++
           replace (dollar :: mid ++ [dollar]) (math_role mid) rest
    /\ (~ occurs (dollar :: mid ++ [dollar]) rest ->
        find_and_replace_math (py "a $x$ b $y$") = pre ++ math_role mid ++ rest).
Proof.
  apply (find_and_replace_math_first_pair_and_its_copies (py "a $x$ b $y$")).
  vm_compute. lia.
Defined.

(** ** The configuration parser *)

Lemma bind_Ok {A B} (a : A) (k : A -> result B) : Ok a ≫= k = k a.
Proof. done. Qed.

Lemma bind_Raise {A B} e (k : A -> result B) : Raise e ≫= k = Raise e.
Proof. done. Qed.

Lemma bind_Ok_inv {A B} (r : result A) (k : A -> result B) b :
  r ≫= k = Ok b -> exists a, r = Ok a /\ k a = Ok b.
Proof. destruct r as [a|e]; [by exists a | done]. Qed.

Lemma split_from_nomatch old c s :
  startswith old (c :: s) = false ->
  split_from old 0 (c :: s) =
    match split_from old 0 s with
    | piece :: rest => (c :: piece) :: rest
    | [] => [[c]]
    end.
Proof. intros H. cbn [split_from]. by rewrite H. Qed.

Lemma split_char_none d s : (d ∉ s) -> split_from [d] 0 s = [s].
Proof.
  induction s as [|c s IH]; intros H; [done|].
  apply not_elem_of_cons in H as [Hc Hs].
  rewrite split_from_nomatch, IH; [done | done |].
  rewrite startswith_char. by apply Ascii.eqb_neq.
Qed.

Lemma split_char_first d lhs rest :
  (d ∉ lhs) ->
  split_from [d] 0 (lhs ++ d :: rest) = lhs :: split_from [d] 0 rest.
Proof.
  induction lhs as [|c lhs IH]; intros H.
  - by apply (split_from_match [d]).
  - apply not_elem_of_cons in H as [Hc Hs].
    rewrite <- app_comm_cons, split_from_nomatch, IH; [done | done |].
    rewrite startswith_char. by apply Ascii.eqb_neq.
Qed.

(** The fields of a line: the text before the first [=], the text up to
    the next one, and whatever follows. *)
Lemma split_equals_fields lhs value more :
  (equals ∉ lhs) -> (equals ∉ value) ->
  more = [] \/ head more = Some equals ->
  exists fields,
    split_from [equals] 0 (lhs ++ equals :: value ++ more)
      = lhs :: value :: fields.
Proof.
  intros Hl Hv Hm. rewrite split_char_first by done.
  destruct Hm as [-> | Hm].
  - exists []. by rewrite app_nil_r, split_char_none.
  - destruct more as [|c more]; [done|]. injection Hm as ->.
    eexists. by rewrite split_char_first.
Qed.

Lemma run_lines_app st l1 l2 :
  run_lines st (l1 ++ l2) = st' ← run_lines st l1; run_lines st' l2.
Proof.
  revert st. induction l1 as [|d l1 IH]; intros st; [done|].
  cbn [app run_lines]. destruct (config_line st d) as [st'|e]; [|done].
  rewrite !bind_Ok. apply IH.
Qed.

Lemma parse_lines_snoc lines n :
  parse_lines (lines ++ [n]) =
    st ← parse_lines lines;
    if is_kept n then config_line st (strip n) else Ok st.
Proof.
  unfold parse_lines. rewrite List.filter_app, fmap_app, run_lines_app.
  destruct (run_lines _ _) as [st|e]; [|done]. rewrite !bind_Ok.
  cbn [List.filter]. destruct (is_kept n); [|done].
  cbn [fmap list_fmap run_lines]. by destruct (config_line st (strip n)).
Qed.

Lemma config_line_well_keyed st d st' :
  well_keyed st -> config_line st d = Ok st' -> well_keyed st'.
Proof.
  intros Hst. unfold config_line.
  destruct (0 <? count (py "=") d).
  - intros (res & _ & (value & _ & (key & Hkey & [= <-])%bind_Ok_inv)
              %bind_Ok_inv)%bind_Ok_inv.
    intros ? [= <-]. exists key. split; [done|].
    cbn. rewrite lookup_insert_eq. by eexists.
  - destruct (backup st) as [res|] eqn:Hb; [|done].
    destruct (Hst res Hb) as (key & Hkey & value & Hv).
    rewrite Hkey, bind_Ok, Hv. intros [= <-] res' [= <-].
    exists key. split; [done|]. cbn. rewrite lookup_insert_eq. by eexists.
Qed.

Lemma run_lines_well_keyed conf st st' :
  well_keyed st -> run_lines st conf = Ok st' -> well_keyed st'.
Proof.
  revert st. induction conf as [|d conf IH]; intros st Hst; cbn.
  - by intros [= <-].
  - destruct (config_line st d) as [st1|] eqn:E; [|done].
    rewrite bind_Ok. apply IH. by eapply config_line_well_keyed.
Qed.

Lemma parse_lines_well_keyed lines st : parse_lines lines = Ok st -> well_keyed st.
Proof. apply run_lines_well_keyed. by intros res. Qed.

(** *** Stripping *)

Lemma lstrip_spaces ws s :
  Forall (fun c => isspace c = true) ws -> lstrip (ws ++ s) = lstrip s.
Proof. induction 1 as [|c ws Hc _ IH]; [done|]. cbn. by rewrite Hc. Qed.

Lemma lstrip_nonspace c s : isspace c = false -> lstrip (c :: s) = c :: s.
Proof. intros H. cbn. by rewrite H. Qed.

Lemma lstrip_snoc_nonspace x c :
  isspace c = false -> lstrip (x ++ [c]) = lstrip x ++ [c].
Proof.
  intros H. induction x as [|a x IH]; cbn; [by rewrite H|].
  by destruct (isspace a).
Qed.

Lemma rstrip_cons_nonspace c s :
  isspace c = false -> rstrip (c :: s) = c :: rstrip s.
Proof.
  intros H. unfold rstrip.
  by rewrite reverse_cons, lstrip_snoc_nonspace, reverse_app.
Qed.

Lemma strip_indented ws c rest :
  Forall (fun c => isspace c = true) ws -> isspace c = false ->
  strip (ws ++ c :: rest) = c :: rstrip rest.
Proof.
  intros Hws Hc. unfold strip.
  by rewrite lstrip_spaces, lstrip_nonspace, rstrip_cons_nonspace.
Qed.

Lemma elem_of_lstrip x s : x ∈ lstrip s -> x ∈ s.
Proof.
  induction s as [|c s IH]; [done|]. cbn.
  destruct (isspace c); [|done]. intros H. right. by apply IH.
Qed.

Lemma elem_of_rstrip x s : x ∈ rstrip s -> x ∈ s.
Proof.
  unfold rstrip. rewrite elem_of_reverse. intros H%elem_of_lstrip.
  by apply elem_of_reverse.
Qed.

Lemma is_kept_false n :
  is_kept n = false <-> head n = Some hash \/ head n = Some newline.
Proof.
  unfold is_kept. change (py "#") with [hash]. destruct n as [|c n].
  - split; [done | by intros [|]].
  - rewrite !startswith_char. cbn [head].
    destruct (Ascii.eqb_spec hash c) as [<-|H1].
    { split; [by left | done]. }
    destruct (Ascii.eqb_spec newline c) as [<-|H2].
    { split; [by right | done]. }
    split; [done | intros [[=]|[=]]; congruence].
Qed.

Lemma count_equals_positive lhs t : 0 < count [equals] (lhs ++ equals :: t).
Proof.
  rewrite count_char_app, count_char_cons, Ascii.eqb_refl.
  pose proof (count_char_nonneg equals lhs).
  pose proof (count_char_nonneg equals t). lia.
Qed.

Lemma config_line_key_value st lhs value more :
  (equals ∉ lhs) -> (equals ∉ value) ->
  more = [] \/ head more = Some equals ->
  exists fields,
    config_line st (lhs ++ equals :: value ++ more) =
      key ← first_item (split_ws lhs);
      Ok {| entries := <[key := value]> (entries st);
            backup := Some (lhs :: value :: fields) |}.
Proof.
  intros Hl Hv Hm.
  destruct (split_equals_fields lhs value more) as [fields Hs]; [done..|].
  exists fields. unfold config_line. change (py "=") with [equals].
  pose proof (count_equals_positive lhs (value ++ more)) as Hc.
  apply Z.ltb_lt in Hc. rewrite Hc. unfold split. by rewrite bind_Ok, Hs.
Qed.

(** C2 (defect of the code): the line "PREDEFINED = A=1" is a key-value
    line whose value, the text right of the first [=], is " A=1"; the
    parser stores " A": [split] cuts the stripped line at every [=] and
    only the second field is kept, so the text from the second [=] on is
    lost. *)
Theorem value_is_cut_at_second_equals :
  parse_doxygen_config (py "PREDEFINED = A=1" ++ [newline])
    = Ok {[ py "PREDEFINED" := py " A" ]}
  /\ value_at (py "PREDEFINED")
       (parse_doxygen_config (py "PREDEFINED = A=1" ++ [newline]))
     <> Some (py " A=1").
Proof.
  assert (parse_doxygen_config (py "PREDEFINED = A=1" ++ [newline])
          = Ok {[ py "PREDEFINED" := py " A" ]}) as -> by by vm_compute.
  split; [done|]. unfold value_at. by rewrite lookup_singleton_eq.
Qed.

(** What the loop does with a key-value line: when the last line read is
    kept and, once stripped, is [lhs], an [=], [value] and [more], where
    [lhs] and [value] contain no [=] and [more] is empty or starts with
    [=], the key is the first whitespace-delimited token of [lhs], the
    entry stored under it is [value], and that key becomes the current
    key; when [lhs] has no token the line raises IndexError. *)
Lemma key_value_line_is_split_at_every_equals
    (lines : list str) (st : config_state) (n lhs value more : str) :
  parse_lines lines = Ok st ->
  is_kept n = true ->
  strip n = lhs ++ equals :: value ++ more ->
  (equals ∉ lhs) -> (equals ∉ value) ->
  more = [] \/ head more = Some equals ->
  match split_ws lhs with
  | [] => parse_lines (lines ++ [n]) = Raise IndexError
  | key :: _ =>
      exists st', parse_lines (lines ++ [n]) = Ok st'
        /\ entries st' = <[key := value]> (entries st)
        /\ current_key st' = Some key
  end.
Proof.
  intros Hst Hn Hd Hl Hv Hm.
  rewrite parse_lines_snoc, Hst, bind_Ok, Hn, Hd.
  destruct (config_line_key_value st lhs value more) as [fields ->]; [done..|].
  destruct (split_ws lhs) as [|key tokens] eqn:Hk; [done|].
  eexists. split; [done|]. split; [done|]. cbn. by rewrite Hk.
Qed.

Lemma key_value_line_is_split_at_every_equals_witness :
  exists st',
    parse_lines ([] ++ [py "PREDEFINED = A=1" ++ [newline]]) = Ok st'
    /\ entries st' = <[py "PREDEFINED" := py " A"]> (entries initial_state)
    /\ current_key st' = Some (py "PREDEFINED").
Proof.
  apply (key_value_line_is_split_at_every_equals
           [] initial_state (py "PREDEFINED = A=1" ++ [newline])
           (py "PREDEFINED ") (py " A") (py "=1")).
  - reflexivity.
  - reflexivity.
  - reflexivity.
  - compute_done.
  - compute_done.
  - right. reflexivity.
Defined.

Lemma parse_two_line_config :
  parse_doxygen_config two_line_config
    = Ok {[ py "OUTPUT_DIRECTORY" := py " buildcontinued" ]}.
Proof. by vm_compute. Qed.

(** C3, refuted as stated: the mapping returned for the two-line example
    does not hold " build  continued" followed by a newline. *)
Lemma continuation_is_not_appended_verbatim :
  parse_doxygen_config two_line_config
    <> Ok {[ py "OUTPUT_DIRECTORY" := py " build  continued" ++ [newline] ]}.
Proof.
  rewrite parse_two_line_config.
  intros H%(f_equal (value_at (py "OUTPUT_DIRECTORY"))). unfold value_at in H.
  by rewrite !lookup_singleton_eq in H.
Qed.

(** C3, amended: [parse_doxygen_config] applied to the text of the two
    lines "OUTPUT_DIRECTORY = build" and "  continued" returns the mapping
    of OUTPUT_DIRECTORY to " buildcontinued": both lines are stripped
    before they are used, so the continuation is appended without its
    leading whitespace and without the newlines. *)
Theorem continuation_is_appended_stripped :
  parse_doxygen_config two_line_config
    = Ok {[ py "OUTPUT_DIRECTORY" := py " buildcontinued" ]}.
Proof. exact parse_two_line_config. Qed.

Lemma current_key_of_backup st res key :
  backup st = Some res -> key_of res = Ok key -> current_key st = Some key.
Proof.
  unfold current_key, key_of, get_item. intros -> H.
  destruct res as [|lhs res]; [done|]. change (first_item (split_ws lhs) = Ok key) in H.
  destruct (split_ws lhs); [done|]. by injection H as ->.
Qed.

Lemma config_line_continuation st d :
  (equals ∉ d) -> well_keyed st ->
  match current_key st with
  | None => backup st = None /\ config_line st d = Raise UnboundLocalError
  | Some key =>
      exists value,
        entries st !! key = Some value
        /\ config_line st d =
             Ok {| entries := <[key := value ++ d]> (entries st);
                   backup := backup st |}
  end.
Proof.
  intros Hd Hst. unfold config_line. change (py "=") with [equals].
  apply count_char_zero in Hd. rewrite Hd. cbn [Z.ltb Z.compare].
  destruct (backup st) as [res|] eqn:Hb.
  - destruct (Hst res Hb) as (key & Hkey & value & Hv).
    rewrite (current_key_of_backup st res key Hb Hkey).
    exists value. by rewrite Hkey, bind_Ok, Hv.
  - unfold current_key. by rewrite Hb.
Qed.

(** C10: a line is discarded exactly when its first character is [#] (a
    comment) or a newline (a blank line).  A line made of whitespace, a
    [#] and a rest without [=] is kept and stripped to the [#] and the
    right-stripped rest; read after lines that established a current key,
    it is appended to the value of that key; read when no key has been
    established, it raises the unbound-variable error. *)
Theorem indented_comment_is_a_continuation
    (lines : list str) (st : config_state) (ws rest : str) :
  parse_lines lines = Ok st ->
  ws <> [] ->
  Forall (fun c => isspace c = true) ws ->
  (newline ∉ ws) ->
  (equals ∉ rest) ->
  (forall n, is_kept n = false <-> head n = Some hash \/ head n = Some newline)
  /\ is_kept (ws ++ hash :: rest) = true
  /\ strip (ws ++ hash :: rest) = hash :: rstrip rest
  /\ match current_key st with
     | None =>
         backup st = None
         /\ parse_lines (lines ++ [ws ++ hash :: rest]) = Raise UnboundLocalError
     | Some key =>
         exists value,
           entries st !! key = Some value
           /\ parse_lines (lines ++ [ws ++ hash :: rest]) =
                Ok {| entries := <[key := value ++ hash :: rstrip rest]> (entries st);
                      backup := backup st |}
     end.
Proof.
  intros Hst Hne Hws Hnl Hrest.
  assert (is_kept (ws ++ hash :: rest) = true) as Hkept.
  { destruct (is_kept _) eqn:E; [done|]. apply is_kept_false in E.
    destruct ws as [|c ws]; [done|]. cbn in E.
    apply Forall_cons in Hws as [Hc _].
    apply not_elem_of_cons in Hnl as [Hn _].
    destruct E as [[= ->]|[= ->]]; [by vm_compute in Hc | done]. }
  assert (strip (ws ++ hash :: rest) = hash :: rstrip rest) as Hstrip
    by by apply strip_indented.
  split; [apply is_kept_false|]. split; [done|]. split; [done|].
  rewrite parse_lines_snoc, Hst, bind_Ok, Hkept, Hstrip.
  apply config_line_continuation; [|by eapply parse_lines_well_keyed].
  apply not_elem_of_cons. split; [done|].
  intros H%elem_of_rstrip. by apply Hrest.
Qed.

Lemma indented_comment_is_a_continuation_witness :
  let st := {| entries := {[ py "INPUT" := py " src" ]};
               backup := Some [py "INPUT "; py " src"] |} in
  (forall n, is_kept n = false <-> head n = Some hash \/ head n = Some newline)
  /\ is_kept (py "  " ++ hash :: py " not a key") = true
  /\ strip (py "  " ++ hash :: py " not a key") = hash :: rstrip (py " not a key")
  /\ exists value,
       entries st !! py "INPUT" = Some value
       /\ parse_lines ([py "INPUT = src" ++ [newline]]
                       ++ [py "  " ++ hash :: py " not a key"]) =
            Ok {| entries := <[py "INPUT" := value ++ hash :: rstrip (py " not a key")]>
                               (entries st);
                  backup := backup st |}.
Proof.
  apply (indented_comment_is_a_continuation
           [py "INPUT = src" ++ [newline]]
           {| entries := {[ py "INPUT" := py " src" ]};
              backup := Some [py "INPUT "; py " src"] |}
           (py "  ") (py " not a key")).
  - vm_compute. reflexivity.
  - discriminate.
  - by repeat constructor.
  - compute_done.
  - compute_done.
Defined.

Example indented_comment_first :
  parse_doxygen_config (py "  # not a key" ++ [newline]) = Raise UnboundLocalError.
Proof. by vm_compute. Qed.

Example indented_comment_after_key :
  parse_doxygen_config
    (py "INPUT = src" ++ [newline] ++ py "  # not a key" ++ [newline])
  = Ok {[ py "INPUT" := py " src# not a key" ]}.
Proof. by vm_compute. Qed.

(** ** The formula escaper *)

Lemma join_cons sep x rest :
  rest <> [] -> join sep (x :: rest) = x ++ sep ++ join sep rest.
Proof. by destruct rest. Qed.

Lemma prefix_startswith p s : p `prefix_of` s -> startswith p s = true.
Proof. apply startswith_prefix. Qed.

Section replace_pieces.
Context (old : str) (Hold : old <> []).

(** [replace] keeps the pieces that [split] isolates and puts [new]
    where [old] stood between them. *)
Lemma replace_split_join new s :
  s = join old (split_from old 0 s)
  /\ replace old new s = join new (split_from old 0 s)
  /\ Forall (fun piece => ~ occurs old piece) (split_from old 0 s).
Proof.
  induction (Nat.lt_wf_0_projected length s) as [s _ IH'].
  destruct s as [|c s].
  { rewrite replace_nil by done. split_and!; try done.
    constructor; [|done]. by rewrite occurs_nil. }
  destruct (startswith old (c :: s)) eqn:E.
  - apply startswith_prefix in E as [t E]. rewrite E.
    destruct (IH' t) as (H1 & H2 & H3).
    { rewrite E, length_app. destruct old; [done | simpl; lia]. }
    rewrite split_from_match, replace_match by done.
    rewrite !join_cons by by apply split_from_nonempty.
    split_and!.
    + by rewrite <- H1.
    + by rewrite <- H2.
    + constructor; [by rewrite occurs_nil | done].
  - destruct (IH' s) as (H1 & H2 & H3); [simpl; lia|].
    rewrite split_from_nomatch, replace_nomatch by done.
    destruct (split_from old 0 s) as [|piece rest] eqn:Hs.
    { by apply split_from_nonempty in Hs. }
    assert (c :: s = join old ((c :: piece) :: rest)) as Hj.
    { rewrite H1 at 1. by destruct rest. }
    split_and!.
    + done.
    + rewrite H2. by destruct rest.
    + apply Forall_cons in H3 as [Hp Hrest].
      constructor; [|done]. rewrite occurs_cons. intros [Hpre | Hocc]; [|done].
      apply startswith_false in E. apply E.
      rewrite Hj. etrans; [done|].
      destruct rest; [done | by eexists].
Qed.
End replace_pieces.

(** Unescaping one of two leading [b]: [old] is [b], [b] and [w]; [new]
    is [b] and [w]. *)
Section unescape.
Context (b : ascii) (w : str) (Hw : w <> []) (Hb : b ∉ w).

Let old : str := b :: b :: w.
Let new : str := b :: w.

Lemma occurs_after_foreign x v r :
  (b ∉ v) -> occurs (b :: x) (v ++ r) -> occurs (b :: x) r.
Proof.
  induction v as [|c v IH]; intros Hv; [done|].
  apply not_elem_of_cons in Hv as [Hc Hv].
  rewrite <- app_comm_cons, occurs_cons. intros [[k Hk] | H]; [|by apply IH].
  by injection Hk as -> _.
Qed.

Lemma replaced_starts_with_foreign c v s :
  c <> b -> startswith (c :: v) (replace old new s) = true ->
  exists s', s = c :: s' /\ startswith v (replace old new s') = true.
Proof.
  intros Hc. destruct s as [|x s].
  { by rewrite replace_nil. }
  destruct (startswith old (x :: s)) eqn:E.
  - apply startswith_prefix in E as [t ->].
    rewrite replace_match by done. cbn [new app startswith].
    intros [Heq _]%andb_true_iff. by apply Ascii.eqb_eq in Heq.
  - rewrite replace_nomatch by done. cbn [startswith].
    intros [->%Ascii.eqb_eq H]%andb_true_iff. by exists s.
Qed.

Lemma replaced_starts_with_foreigns v s :
  (b ∉ v) -> startswith v (replace old new s) = true -> startswith v s = true.
Proof.
  revert s. induction v as [|c v IH]; intros s Hv; [done|].
  apply not_elem_of_cons in Hv as [Hc Hv]. intros H.
  apply replaced_starts_with_foreign in H as (s' & -> & H); [|done].
  cbn [startswith]. by rewrite Ascii.eqb_refl, IH.
Qed.

Lemma replaced_starts_with_new s :
  startswith new (replace old new s) = true ->
  startswith old s = true \/ startswith new s = true.
Proof.
  destruct (startswith old s) eqn:E; [by left | right].
  destruct s as [|x s]; [by rewrite replace_nil in H|].
  rewrite replace_nomatch in H by done. cbn [new startswith] in H |- *.
  apply andb_true_iff in H as [-> H]. by rewrite replaced_starts_with_foreigns.
Qed.

(** The text left by the replacement holds [old] only where the input
    held it behind one more [b]. *)
Lemma no_old_after_replace s :
  ~ occurs (b :: old) s -> ~ occurs old (replace old new s).
Proof.
  induction (Nat.lt_wf_0_projected length s) as [s _ IH'].
  intros Hs. destruct s as [|c s].
  { rewrite replace_nil by done. by rewrite occurs_nil. }
  destruct (startswith old (c :: s)) eqn:E.
  - apply startswith_prefix in E as [t E]. rewrite E in *.
    rewrite replace_match by done. intros H.
    destruct w as [|c0 w'] eqn:Ew; [done|].
    apply not_elem_of_cons in Hb as [Hc0 Hw'].
    cbn [new app] in H. apply occurs_cons in H as [[k Hk] | H].
    { injection Hk as ? _. congruence. }
    change (c0 :: w' ++ replace old new t)
      with ((c0 :: w') ++ replace old new t) in H.
    apply occurs_after_foreign in H; [|by apply not_elem_of_cons].
    revert H. apply IH'.
    + rewrite length_app. simpl. lia.
    + intros Ht. apply Hs. by apply occurs_app_r.
  - rewrite replace_nomatch by done.
    rewrite occurs_cons. intros [Hpre | Hocc].
    + apply prefix_startswith in Hpre. cbn [old startswith] in Hpre.
      apply andb_true_iff in Hpre as [<-%Ascii.eqb_eq Hpre].
      apply replaced_starts_with_new in Hpre as [H | H].
      * apply Hs. apply startswith_prefix in H as [t ->]. by exists [], t.
      * change (startswith old (b :: s))
          with (Ascii.eqb b b && startswith new s) in E.
        by rewrite Ascii.eqb_refl, H in E.
    + revert Hocc. apply IH'; [simpl; lia|].
      intros H. apply Hs. by apply (occurs_app_r _ [c]).
Qed.
End unescape.

Lemma universal_newlines_without_cr s :
  (carriage_return ∉ s) -> universal_newlines s = s.
Proof.
  induction s as [|c s IH]; intros H; [done|].
  apply not_elem_of_cons in H as [Hc H]. cbn [universal_newlines].
  destruct (Ascii.eqb_spec c "013") as [->|_]; [done|]. by rewrite IH.
Qed.

Lemma filter_dot_in_xml_formulas_writes fs xmlfile content :
  fs !! xmlfile = Some content ->
  exists fs',
    filter_dot_in_xml_formulas xmlfile fs = Ok fs'
    /\ fs' !! xmlfile
       = Some (replace escaped_dot plain_dot (universal_newlines content)).
Proof.
  intros H. unfold filter_dot_in_xml_formulas, move, read_text, write_text.
  rewrite H, bind_Ok, lookup_insert_eq.
  eexists. split; [done|]. apply lookup_insert_eq.
Qed.

(** C4, refuted as stated: a file that holds three backslashes and [dot]
    is rewritten to two backslashes and [dot], the very sequence that was
    to disappear; and a file read in text mode comes back with its CR LF
    as a newline, a change outside every replaced occurrence. *)
Lemma escaped_dot_left_behind_three_backslashes :
  filter_dot_in_xml_formulas (py "formula.xml")
      {[ py "formula.xml" := overescaped_dot ]}
    = Ok {[ py "formula.xml" := escaped_dot ]}
  /\ occurs escaped_dot (replace escaped_dot plain_dot overescaped_dot)
  /\ filter_dot_in_xml_formulas (py "formula.xml")
       {[ py "formula.xml" := py "a" ++ [carriage_return; newline] ]}
     = Ok {[ py "formula.xml" := py "a" ++ [newline] ]}.
Proof.
  split; [by vm_compute|]. split; [by exists [], [] | by vm_compute].
Qed.

(** C4, amended: [filter_dot_in_xml_formulas] rewrites the file to the
    text read from it in text mode -- its content with CR LF and lone CR
    turned into newlines, and its content itself when it holds no CR --
    with the occurrences of the double-backslash-dot sequence, found from
    left to right, replaced by the single-backslash form; the pieces of
    that text between these occurrences hold no further occurrence and
    are the same in the result, in the same order; and the result holds
    no double-backslash-dot sequence provided the text read held none
    behind a third backslash. *)
Theorem filter_dot_rewrites_each_escaped_dot
    (fs : gmap str str) (xmlfile content : str) :
  fs !! xmlfile = Some content ->
  let lines := universal_newlines content in
  let newlines := replace escaped_dot plain_dot lines in
  let pieces := split_from escaped_dot 0 lines in
  (exists fs', filter_dot_in_xml_formulas xmlfile fs = Ok fs'
               /\ fs' !! xmlfile = Some newlines)
  /\ ((carriage_return ∉ content) -> lines = content)
  /\ lines = join escaped_dot pieces
  /\ newlines = join plain_dot pieces
  /\ Forall (fun piece => ~ occurs escaped_dot piece) pieces
  /\ (~ occurs overescaped_dot lines -> ~ occurs escaped_dot newlines).
Proof.
  intros H lines newlines pieces.
  split; [by apply filter_dot_in_xml_formulas_writes|].
  split; [apply universal_newlines_without_cr|].
  destruct (replace_split_join escaped_dot ltac:(done) plain_dot lines)
    as (H1 & H2 & H3).
  split; [done|]. split; [done|]. split; [done|].
  apply (no_old_after_replace "\"%char (py "dot")); [done | compute_done].
Qed.

Lemma filter_dot_rewrites_each_escaped_dot_witness :
  let content := py "$\\dot x = \dot y$" in
  let lines := universal_newlines content in
  let newlines := replace escaped_dot plain_dot lines in
  let pieces := split_from escaped_dot 0 lines in
  (exists fs', filter_dot_in_xml_formulas (py "xml/formula.xml")
                 {[ py "xml/formula.xml" := content ]} = Ok fs'
               /\ fs' !! py "xml/formula.xml" = Some newlines)
  /\ ((carriage_return ∉ content) -> lines = content)
  /\ lines = join escaped_dot pieces
  /\ newlines = join plain_dot pieces
  /\ Forall (fun piece => ~ occurs escaped_dot piece) pieces
  /\ (~ occurs overescaped_dot lines -> ~ occurs escaped_dot newlines).
Proof.
  apply (filter_dot_rewrites_each_escaped_dot
           {[ py "xml/formula.xml" := py "$\\dot x = \dot y$" ]}
           (py "xml/formula.xml")).
  apply lookup_singleton_eq.
Defined.

Example filter_dot_example :
  replace escaped_dot plain_dot (py "$\\dot x = \dot y$") = py "$\dot x = \dot y$".
Proof. by vm_compute. Qed.

(** ** Case folding and stem mangling *)

Lemma replace_char_flat_map d new s :
  replace [d] new s = flat_map (fun c => if Ascii.eqb d c then new else [c]) s.
Proof.
  induction s as [|c s IH]; [done|]. cbn [flat_map].
  destruct (Ascii.eqb d c) eqn:E.
  - apply Ascii.eqb_eq in E as <-. rewrite <- IH. by apply (replace_match [d]).
  - rewrite <- IH. apply replace_nomatch; [done | by rewrite startswith_char].
Qed.

Lemma isupper_lower c : isupper (lower c) = false.
Proof. by destruct c as [[] [] [] [] [] [] [] []]. Qed.

Lemma replace_uppercase_letters_no_upper s :
  Forall (fun c => isupper c = false) (replace_uppercase_letters s).
Proof.
  unfold replace_uppercase_letters. induction s as [|c s IH]; [done|].
  cbn [flat_map]. apply Forall_app. split; [|done].
  destruct (isupper c) eqn:E.
  - repeat constructor. apply isupper_lower.
  - by repeat constructor.
Qed.

Lemma replace_uppercase_letters_id s :
  Forall (fun c => isupper c = false) s -> replace_uppercase_letters s = s.
Proof.
  unfold replace_uppercase_letters.
  induction 1 as [|c s Hc _ IH]; [done|]. cbn [flat_map]. by rewrite Hc, IH.
Qed.

Lemma double_underscores_no_upper s :
  Forall (fun c => isupper c = false) s ->
  Forall (fun c => isupper c = false) (double_underscores s).
Proof.
  unfold double_underscores. change (py "_") with ["_"%char].
  rewrite replace_char_flat_map.
  induction 1 as [|c s Hc _ IH]; [done|]. cbn [flat_map].
  apply Forall_app. split; [|done].
  destruct (Ascii.eqb "_" c); by repeat constructor.
Qed.

Lemma length_double_underscores s :
  length (double_underscores s) = (length s + occurrences "_" s)%nat.
Proof.
  unfold double_underscores, occurrences. change (py "_") with ["_"%char].
  rewrite replace_char_flat_map.
  induction s as [|c s IH]; [done|]. cbn [flat_map List.filter].
  rewrite length_app, IH. destruct (Ascii.eqb "_" c); simpl; lia.
Qed.

Lemma occurrences_app d a b :
  occurrences d (a ++ b) = (occurrences d a + occurrences d b)%nat.
Proof. unfold occurrences. by rewrite List.filter_app, length_app. Qed.

Lemma underscore_of_uppercase s c :
  c ∈ s -> isupper c = true ->
  (0 < occurrences "_" (replace_uppercase_letters s))%nat.
Proof.
  unfold replace_uppercase_letters.
  induction 1 as [c s | c x s _ IH]; intros Hc; cbn [flat_map];
    rewrite occurrences_app.
  - rewrite Hc. unfold occurrences at 1. simpl. lia.
  - specialize (IH Hc). lia.
Qed.

Lemma elem_of_double_underscores c s : c ∈ s -> c ∈ double_underscores s.
Proof.
  unfold double_underscores. change (py "_") with ["_"%char].
  rewrite replace_char_flat_map.
  induction 1 as [c s | c x s _ IH]; cbn [flat_map]; apply elem_of_app.
  - left. destruct (Ascii.eqb_spec "_" c) as [<-|]; [by left | by left].
  - by right.
Qed.

(** C5, refuted as stated: on the stem TimeStepping the composite applied
    to its own output doubles the underscores once more, in the order of
    the specification (fold, then double) as in the order of the source
    (double, then fold). *)
Lemma mangling_is_not_idempotent :
  fold_then_double (py "TimeStepping") = py "__time__stepping"
  /\ fold_then_double (fold_then_double (py "TimeStepping"))
       = py "____time____stepping"
  /\ fold_then_double (fold_then_double (py "TimeStepping"))
       <> fold_then_double (py "TimeStepping")
  /\ mangle (mangle (py "TimeStepping") false) false
       <> mangle (py "TimeStepping") false.
Proof. by vm_compute. Qed.

(** C5, amended: for every header stem made of characters below U+0100
    (ASCII and Latin-1, the characters of this model), case folding is
    idempotent on already-folded input: [replace_uppercase_letters]
    returns its own output, and the output of either composite,
    unchanged; the composite of folding and underscore doubling is not
    idempotent: applied to its own output it doubles the underscores
    again, so that for a stem containing an uppercase letter the second
    output is strictly longer than the first. *)
Theorem case_folding_is_idempotent_mangling_is_not (stem : str) :
  replace_uppercase_letters (replace_uppercase_letters stem)
    = replace_uppercase_letters stem
  /\ replace_uppercase_letters (fold_then_double stem) = fold_then_double stem
  /\ replace_uppercase_letters (mangle stem false) = mangle stem false
  /\ fold_then_double (fold_then_double stem)
       = double_underscores (fold_then_double stem)
  /\ mangle (mangle stem false) false = double_underscores (mangle stem false)
  /\ ((exists c, c ∈ stem /\ isupper c = true) ->
      (length (fold_then_double stem)
         < length (fold_then_double (fold_then_double stem)))%nat
      /\ (length (mangle stem false)
            < length (mangle (mangle stem false) false))%nat).
Proof.
  pose proof replace_uppercase_letters_no_upper as Hfold.
  pose proof double_underscores_no_upper as Hdouble.
  assert (replace_uppercase_letters (fold_then_double stem)
          = fold_then_double stem) as H1.
  { apply replace_uppercase_letters_id, Hdouble, Hfold. }
  assert (replace_uppercase_letters (mangle stem false) = mangle stem false) as H2.
  { apply replace_uppercase_letters_id, Hfold. }
  assert (fold_then_double (fold_then_double stem)
          = double_underscores (fold_then_double stem)) as H3.
  { unfold fold_then_double at 1. by rewrite H1. }
  assert (mangle (mangle stem false) false
          = double_underscores (mangle stem false)) as H4.
  { unfold mangle at 1. cbn [negb]. fold (double_underscores (mangle stem false)).
    apply replace_uppercase_letters_id, Hdouble, Hfold. }
  split_and!; try done.
  - apply replace_uppercase_letters_id, Hfold.
  - intros (c & Hc & Hup). rewrite H3, H4, !length_double_underscores.
    split.
    + assert (0 < occurrences "_" (fold_then_double stem))%nat; [|lia].
      unfold fold_then_double.
      pose proof (underscore_of_uppercase stem c Hc Hup) as Hu.
      pose proof (length_double_underscores (replace_uppercase_letters stem)).
      unfold occurrences in *.
      destruct (List.filter _ (replace_uppercase_letters stem)) as [|u l] eqn:E;
        [simpl in Hu; lia|].
      assert (u ∈ List.filter (Ascii.eqb "_") (replace_uppercase_letters stem))
        as Hin by (rewrite E; left).
      apply list_elem_of_In, List.filter_In in Hin as [Hin Hu'].
      apply Ascii.eqb_eq in Hu' as <-. apply list_elem_of_In in Hin.
      apply elem_of_double_underscores in Hin.
      apply list_elem_of_In in Hin.
      assert (In "_"%char (List.filter (Ascii.eqb "_")
                (double_underscores (replace_uppercase_letters stem)))) as Hf.
      { apply List.filter_In. split; [done | apply Ascii.eqb_refl]. }
      destruct (List.filter _ (double_underscores _)); [done | simpl; lia].
    + assert (0 < occurrences "_" (mangle stem false))%nat; [|lia].
      unfold mangle. cbn [negb].
      apply (underscore_of_uppercase _ c); [|done].
      by apply elem_of_double_underscores.
Qed.

Lemma case_folding_is_idempotent_mangling_is_not_witness :
  (length (fold_then_double (py "TimeStepping"))
     < length (fold_then_double (fold_then_double (py "TimeStepping"))))%nat
  /\ (length (mangle (py "TimeStepping") false)
        < length (mangle (mangle (py "TimeStepping") false) false))%nat.
Proof.
  apply (case_folding_is_idempotent_mangling_is_not (py "TimeStepping")).
  exists "T"%char. split; [compute_done | reflexivity].
Defined.

(** ** The XML file locator *)

Lemma mangle_TimeStepping :
  mangle (path_stem (py "TimeStepping.h")) false = py "_time_stepping".
Proof. by vm_compute. Qed.

Lemma glob_exact_name xml_path name :
  simple_pattern name = true -> has_wildcard name = false ->
  name ∈ xml_path -> glob xml_path name = Some [name].
Proof.
  intros Hs Hw Hin. unfold glob. by rewrite Hs, Hw, bool_decide_eq_true_2.
Qed.

Lemma glob_simple xml_path pattern :
  simple_pattern pattern = true -> is_Some (glob xml_path pattern).
Proof. intros Hs. unfold glob. rewrite Hs. by eexists. Qed.

(** C6, refuted as stated: in a directory whose only entry is
    class_time__stepping.xml nothing is found for TimeStepping.h. *)
Lemma doubled_underscore_name_is_not_found :
  get_xml_files (py "TimeStepping.h") [py "class_time__stepping.xml"] false
    = Some [].
Proof. by vm_compute. Qed.

(** C6, amended: [get_xml_files] called with [case_sense_names=False] for
    the header TimeStepping.h on an XML directory that contains a file
    named class_time_stepping.xml (one underscore before each folded
    capital) returns a list containing that file. *)
Theorem get_xml_files_finds_folded_class_file (xml_path : list str) :
  py "class_time_stepping.xml" ∈ xml_path ->
  exists files,
    get_xml_files (py "TimeStepping.h") xml_path false = Some files
    /\ py "class_time_stepping.xml" ∈ files.
Proof.
  intros Hin. unfold get_xml_files. rewrite mangle_TimeStepping.
  change (py "class" ++ py "_time_stepping" ++ py ".xml")
    with (py "class_time_stepping.xml").
  rewrite (glob_exact_name xml_path (py "class_time_stepping.xml"))
    by (done || by vm_compute).
  destruct (glob_simple xml_path (py "struct" ++ py "_time_stepping" ++ py ".xml"))
    as [structfiles ->]; [by vm_compute|].
  destruct (glob_simple xml_path (py "_time_stepping" ++ py "_8h*.xml"))
    as [files8h ->]; [by vm_compute|].
  eexists. split; [done|]. apply elem_of_app. left. by left.
Qed.

Lemma get_xml_files_finds_folded_class_file_witness :
  exists files,
    get_xml_files (py "TimeStepping.h")
      [py "index.xml"; py "class_time_stepping.xml"; py "_time_stepping_8h.xml"]
      false = Some files
    /\ py "class_time_stepping.xml" ∈ files.
Proof.
  apply (get_xml_files_finds_folded_class_file
           [py "index.xml"; py "class_time_stepping.xml";
            py "_time_stepping_8h.xml"]).
  compute_done.
Defined.

Example get_xml_files_TimeStepping :
  get_xml_files (py "TimeStepping.h")
    [py "index.xml"; py "class_time_stepping.xml"; py "_time_stepping_8h.xml"]
    false
  = Some [py "class_time_stepping.xml"; py "_time_stepping_8h.xml"].
Proof. by vm_compute. Qed.

(** ** The compound info extractor *)

(** C7, refuted as stated: a compound node without [kind] attribute, and
    without the two children, fails on the attribute lookup, before any
    assertion is reached. *)
Lemma missing_kind_fails_before_the_assertions :
  get_xml_compound_infos (Element (py "compounddef") ∅ None [] None)
    = Raise KeyError
  /\ get_xml_compound_infos (Element (py "compounddef") ∅ None [] None)
    <> Raise AssertionError.
Proof. by vm_compute. Qed.

(** C7, amended: a compound node without [kind] attribute fails with
    KeyError; a compound node with a [kind] attribute fails with an
    assertion error whenever it does not have exactly one compoundname
    child and exactly one briefdescription child; when the assertions
    pass and the brief description has no para child, the result is the
    text of the name, the kind, and the empty string as description. *)
Theorem get_xml_compound_infos_assertions (compound : element) :
  let names := findall compound (py "compoundname") in
  let descr := findall compound (py "briefdescription") in
  (attrib_of compound !! py "kind" = None ->
   get_xml_compound_infos compound = Raise KeyError)
  /\ (forall kind, attrib_of compound !! py "kind" = Some kind ->
      (~ (length names = 1%nat /\ length descr = 1%nat) ->
       get_xml_compound_infos compound = Raise AssertionError)
      /\ (forall name brief,
           names = [name] -> descr = [brief] ->
           find_child brief (py "para") = None ->
           get_xml_compound_infos compound = Ok (text_of name, kind, []))).
Proof.
  intros names descr. unfold get_xml_compound_infos. fold names descr.
  split; [by intros ->|].
  intros kind ->. rewrite bind_Ok. split.
  - intros Hn. destruct (Nat.eqb_spec (length names) 1) as [H1|H1]; [|done].
    destruct (Nat.eqb_spec (length descr) 1) as [H2|H2]; [|done].
    by destruct Hn.
  - intros name brief -> -> Hpara. cbn [length Nat.eqb assert_].
    rewrite !bind_Ok. unfold get_item. cbn [lookup list_lookup].
    by rewrite !bind_Ok, Hpara.
Qed.

Lemma get_xml_compound_infos_assertions_witness :
  get_xml_compound_infos
    (Element (py "compounddef") {[ py "kind" := py "class" ]} None
       [Element (py "compoundname") ∅ (Some (py "TimeStepping")) [] None;
        Element (py "briefdescription") ∅ None [] None] None)
  = Ok (Some (py "TimeStepping"), py "class", []).
Proof.
  apply (proj2 (proj2 (get_xml_compound_infos_assertions
    (Element (py "compounddef") {[ py "kind" := py "class" ]} None
       [Element (py "compoundname") ∅ (Some (py "TimeStepping")) [] None;
        Element (py "briefdescription") ∅ None [] None] None))
    (py "class") ltac:(by vm_compute))
    (Element (py "compoundname") ∅ (Some (py "TimeStepping")) [] None)
    (Element (py "briefdescription") ∅ None [] None)).
  - by vm_compute.
  - by vm_compute.
  - reflexivity.
Defined.

Example get_xml_compound_infos_two_names :
  get_xml_compound_infos
    (Element (py "compounddef") {[ py "kind" := py "class" ]} None
       [Element (py "compoundname") ∅ (Some (py "A")) [] None;
        Element (py "compoundname") ∅ (Some (py "B")) [] None;
        Element (py "briefdescription") ∅ None [] None] None)
  = Raise AssertionError.
Proof. by vm_compute. Qed.

(** ** The placeholder substitutor *)

Lemma pretty_N_char_id_char x : id_char (pretty_N_char x) = true.
Proof. unfold pretty_N_char. by repeat case_match. Qed.

Lemma pretty_N_go_id_chars x s :
  Forall (fun c => id_char c = true) (py s) ->
  Forall (fun c => id_char c = true) (py (pretty_N_go x s)).
Proof.
  revert s. induction (N.lt_wf_0 x) as [x _ IH]. intros s Hs.
  destruct (decide (x = 0)%N) as [->|Hx]; [by rewrite pretty_N_go_0|].
  rewrite pretty_N_go_step by lia. apply IH.
  - apply N.div_lt; lia.
  - constructor; [apply pretty_N_char_id_char | done].
Qed.

Lemma pretty_N_id_chars (x : N) :
  Forall (fun c => id_char c = true) (py (pretty x)).
Proof.
  unfold pretty, pretty_N. case_decide.
  - by repeat constructor.
  - by apply pretty_N_go_id_chars.
Qed.

Lemma str_of_int_id_chars (z : Z) :
  Forall (fun c => id_char c = true) (str_of_int z).
Proof.
  unfold str_of_int. destruct z as [|p|p]; unfold pretty, pretty_Z.
  - by repeat constructor.
  - apply pretty_N_id_chars.
  - constructor; [done | apply pretty_N_id_chars].
Qed.

Lemma py_inj s1 s2 : py s1 = py s2 -> s1 = s2.
Proof.
  intros H. apply (f_equal String.string_of_list_ascii) in H.
  unfold py in H. by rewrite !String.string_of_list_ascii_of_string in H.
Qed.

Lemma str_of_int_inj i j : str_of_int i = str_of_int j -> i = j.
Proof. intros H%py_inj. by apply (inj pretty). Qed.

(** Tokens opened by [f] and closed by [u], neither of which occurs in
    between. *)
Section delimited.
Context (f u : ascii) (Hfu : f <> u).

Let token (body : str) : str := f :: body ++ [u].

Lemma closed_body_prefix b1 b2 r :
  (u ∉ b1) -> (u ∉ b2) ->
  (b1 ++ [u]) `prefix_of` (b2 ++ u :: r) -> b1 = b2.
Proof.
  revert b2. induction b1 as [|a b1 IH]; intros [|c b2] H1 H2 [k Hk];
    cbn in Hk.
  - done.
  - injection Hk as <- _. by apply not_elem_of_cons in H2 as [? _].
  - injection Hk as -> _. by apply not_elem_of_cons in H1 as [? _].
  - injection Hk as -> Hk.
    apply not_elem_of_cons in H1 as [_ H1].
    apply not_elem_of_cons in H2 as [_ H2].
    f_equal. apply IH; [done | done | by exists k].
Qed.

Lemma token_prefix b1 b2 r :
  (u ∉ b1) -> (u ∉ b2) ->
  token b1 `prefix_of` (token b2 ++ r) -> b1 = b2.
Proof.
  intros H1 H2 [k Hk]. unfold token in Hk. cbn in Hk.
  injection Hk as Hk. apply (closed_body_prefix b1 b2 r); [done | done |].
  exists k. by rewrite <- app_assoc in Hk.
Qed.

Lemma token_in_token b1 b2 :
  (f ∉ b2) -> (u ∉ b1) -> (u ∉ b2) ->
  occurs (token b1) (token b2) -> b1 = b2.
Proof.
  intros Hf2 H1 H2 [x [y H]]. destruct x as [|c x].
  - apply (token_prefix b1 b2 []); [done | done |].
    exists y. by rewrite app_nil_r.
  - unfold token in H. cbn in H. injection H as _ H.
    assert (f ∈ b2 ++ [u]) as Hin.
    { rewrite H. apply elem_of_app. right. by left. }
    apply elem_of_app in Hin as [Hin | Hin]; [done|].
    by apply list_elem_of_singleton in Hin.
Qed.

(** Replacing one token leaves an occurrence of another one in place,
    and works on the text before and behind it as on separate texts. *)
Lemma replace_around_token b1 b2 new before after :
  (f ∉ b1) -> (f ∉ b2) -> (u ∉ b1) -> (u ∉ b2) -> b1 <> b2 ->
  replace (token b1) new (before ++ token b2 ++ after)
  = replace (token b1) new before ++ token b2
      ++ replace (token b1) new after.
Proof.
  intros Hf1 Hf2 H1 H2 Hne.
  assert (token b1 <> []) as Hnil by (by unfold token).
  induction (Nat.lt_wf_0_projected length before) as [before _ IH].
  destruct before as [|c before].
  - rewrite (replace_nil _ Hnil). cbn [app].
    change (token b2 ++ after) with (f :: (b2 ++ [u]) ++ after).
    change (token b2 ++ replace (token b1) new after)
      with (f :: (b2 ++ [u]) ++ replace (token b1) new after).
    rewrite (replace_nomatch _ Hnil).
    + f_equal. apply replace_before_first.
      rewrite not_elem_of_app. split; [done|].
      by intros ?%list_elem_of_singleton.
    + apply startswith_false. intros Hp. apply Hne.
      by apply (token_prefix b1 b2 after).
  - destruct (startswith (token b1) ((c :: before) ++ token b2 ++ after))
      eqn:E.
    + assert (exists rest, c :: before = token b1 ++ rest) as [rest Hrest].
      { apply startswith_prefix in E as [k Hk]. symmetry in Hk.
        apply app_eq_inv in Hk as [(k' & Ha & Hk) | (k' & Ha & Hk)].
        - destruct k' as [|c' k'].
          + exists []. by rewrite Ha, !app_nil_r.
          + exfalso.
            change (f :: (b2 ++ [u]) ++ after = c' :: k' ++ k) in Hk.
            injection Hk as <- _.
            change (f :: b1 ++ [u] = c :: before ++ f :: k') in Ha.
            injection Ha as _ Ha.
            assert (f ∈ b1 ++ [u]) as Hin.
            { rewrite Ha. apply elem_of_app. right. by left. }
            apply elem_of_app in Hin as [Hin | Hin]; [done|].
            by apply list_elem_of_singleton in Hin.
        - by exists k'. }
      rewrite Hrest, <- !app_assoc, !(replace_match _ Hnil).
      rewrite <- app_assoc. f_equal. apply IH.
      rewrite Hrest, length_app. unfold token. simpl. lia.
    + rewrite <- app_comm_cons in E |- *.
      rewrite (replace_nomatch _ Hnil) by done.
      rewrite (replace_nomatch _ Hnil new c before).
      * cbn [app]. f_equal. apply IH. simpl. lia.
      * apply startswith_false. apply startswith_false in E.
        intros [k Hk]. apply E. exists (k ++ token b2 ++ after).
        by rewrite app_comm_cons, Hk, <- app_assoc.
Qed.
End delimited.

Lemma placeholder_shape i :
  placeholder i = "F"%char :: (py "ORMULA" ++ str_of_int i) ++ ["_"%char].
Proof. reflexivity. Qed.

Lemma placeholder_body i c :
  c ∈ py "ORMULA" ++ str_of_int i -> c <> "F"%char /\ c <> "_"%char.
Proof.
  intros [H | H]%elem_of_app.
  - revert H. cbn. rewrite !elem_of_cons, elem_of_nil.
    intros [->|[->|[->|[->|[->|[->|[]]]]]]]; by split.
  - pose proof (str_of_int_id_chars i) as Hall.
    rewrite Forall_forall in Hall. specialize (Hall c H).
    split; by intros ->.
Qed.

Lemma placeholder_body_inj i j :
  py "ORMULA" ++ str_of_int i = py "ORMULA" ++ str_of_int j -> i = j.
Proof. intros H%app_inv_head. by apply str_of_int_inj. Qed.

Lemma replace_in_line_inserted idf formula formula_type line :
  replace_in_line idf formula formula_type line
  = replace idf (inserted_text formula formula_type line) line.
Proof.
  unfold replace_in_line, inserted_text.
  by destruct (bool_decide (formula_type = py "inline")).
Qed.

(** C9: for two distinct integer ids the placeholder of one is not a
    substring of the placeholder of the other, and substituting the
    formula of the first in a line leaves every occurrence of the second
    placeholder as it is: the line is rewritten before and behind that
    occurrence only.  The ids play symmetric parts, so this holds in
    whichever order they are processed. *)
Theorem placeholders_do_not_interfere (i j : Z) :
  i <> j ->
  ~ occurs (placeholder i) (placeholder j)
  /\ forall formula formula_type before after : str,
       let line := before ++ placeholder j ++ after in
       let text := inserted_text formula formula_type line in
       replace_in_line (placeholder i) formula formula_type line
       = replace (placeholder i) text before ++ placeholder j
           ++ replace (placeholder i) text after.
Proof.
  intros Hij.
  assert (forall k, "F"%char ∉ py "ORMULA" ++ str_of_int k) as HF.
  { intros k H. by apply placeholder_body in H as [? _]. }
  assert (forall k, "_"%char ∉ py "ORMULA" ++ str_of_int k) as HU.
  { intros k H. by apply placeholder_body in H as [_ ?]. }
  split.
  - rewrite !placeholder_shape. intros H.
    apply token_in_token in H; [|done..].
    by apply placeholder_body_inj in H.
  - intros formula formula_type before after line text.
    rewrite replace_in_line_inserted. fold text. unfold line.
    rewrite !placeholder_shape.
    apply replace_around_token; [done..|].
    intros H. by apply placeholder_body_inj in H.
Qed.

Lemma placeholders_do_not_interfere_witness :
  ~ occurs (placeholder 1) (placeholder 11)
  /\ forall formula formula_type before after : str,
       let line := before ++ placeholder 11 ++ after in
       let text := inserted_text formula formula_type line in
       replace_in_line (placeholder 1) formula formula_type line
       = replace (placeholder 1) text before ++ placeholder 11
           ++ replace (placeholder 1) text after.
Proof.
  apply (placeholders_do_not_interfere 1 11). lia.
Defined.

Example replace_latex_lines_example :
  replace_latex_lines
    [[(1, {| latex := py "x^2"; label := py "inline" |});
      (11, {| latex := py "y"; label := py "inline" |})]]
    [py "FORMULA11_ and FORMULA1_"]
  = [py "y and x^2"].
Proof. by vm_compute. Qed.

(** ** Further properties of the file locator *)

Lemma fnmatch_nil name : fnmatch [] name = true <-> name = [].
Proof. by destruct name. Qed.

Lemma fnmatch_star_unfold p name :
  fnmatch ("*"%char :: p) name =
    fnmatch p name
    || match name with [] => false | _ :: name' => fnmatch ("*"%char :: p) name' end.
Proof. by destruct name. Qed.

Lemma fnmatch_star p name :
  fnmatch ("*"%char :: p) name = true
  <-> exists a b, name = a ++ b /\ fnmatch p b = true.
Proof.
  induction name as [|x name IH]; rewrite fnmatch_star_unfold, orb_true_iff.
  - split.
    + intros [H | H]; [by exists [], [] | done].
    + intros (a & b & Hab & H). symmetry in Hab.
      apply app_eq_nil in Hab as [-> ->]. by left.
  - rewrite IH. split.
    + intros [H | (a & b & -> & H)]; [by exists [], (x :: name)|].
      by exists (x :: a), b.
    + intros ([|y a] & b & Hab & H); cbn in Hab.
      * left. by rewrite Hab.
      * right. injection Hab as -> ->. by exists a, b.
Qed.

Lemma fnmatch_literal_cons c p name :
  c <> "*"%char -> c <> "?"%char ->
  fnmatch (c :: p) name =
    match name with
    | [] => false
    | x :: name' => Ascii.eqb c x && fnmatch p name'
    end.
Proof.
  intros H1%Ascii.eqb_neq H2%Ascii.eqb_neq. cbn [fnmatch]. by rewrite H1, H2.
Qed.

Lemma fnmatch_literal lit p name :
  ("*"%char ∉ lit) -> ("?"%char ∉ lit) ->
  fnmatch (lit ++ p) name = true
  <-> exists rest, name = lit ++ rest /\ fnmatch p rest = true.
Proof.
  intros H1 H2. revert name. induction lit as [|c lit IH]; intros name.
  - split; [intros H; by exists name | by intros (rest & -> & H)].
  - apply not_elem_of_cons in H1 as [Hc1 H1].
    apply not_elem_of_cons in H2 as [Hc2 H2].
    rewrite <- app_comm_cons, fnmatch_literal_cons by done.
    destruct name as [|x name].
    { split; [done | by intros (rest & [=] & _)]. }
    rewrite andb_true_iff, Ascii.eqb_eq, IH by done. split.
    + intros [-> (rest & -> & H)]. by exists rest.
    + intros (rest & [= -> ->] & H). split; [done | by exists rest].
Qed.

(** A pattern of literal characters around one star. *)
Lemma fnmatch_one_star lit1 lit2 name :
  ("*"%char ∉ lit1) -> ("?"%char ∉ lit1) ->
  ("*"%char ∉ lit2) -> ("?"%char ∉ lit2) ->
  fnmatch (lit1 ++ "*"%char :: lit2) name = true
  <-> exists mid, name = lit1 ++ mid ++ lit2.
Proof.
  intros H1 H2 H3 H4. rewrite fnmatch_literal by done. split.
  - intros (rest & -> & (a & b & -> & H)%fnmatch_star).
    replace lit2 with (lit2 ++ []) in H by apply app_nil_r.
    apply fnmatch_literal in H as (e & -> & ->%fnmatch_nil); [|done..].
    exists a. by rewrite app_nil_r.
  - intros (mid & ->). exists (mid ++ lit2). split; [done|].
    apply fnmatch_star. exists mid, lit2. split; [done|].
    replace lit2 with (lit2 ++ []) at 1 by apply app_nil_r.
    apply fnmatch_literal; [done..|]. exists []. by rewrite app_nil_r.
Qed.

Lemma count_no_occurrence old s : old <> [] -> ~ occurs old s -> count old s = 0.
Proof.
  intros Hold. induction s as [|c s IH]; intros H; [by apply count_nil|].
  rewrite occurs_cons in H. rewrite count_nomatch.
  - apply IH. tauto.
  - done.
  - apply startswith_false. tauto.
Qed.

Lemma occurs_elem_of old s c : occurs old s -> c ∈ old -> c ∈ s.
Proof.
  intros (a & b & ->) H. rewrite !elem_of_app. tauto.
Qed.




Lemma flat_map_flat_map {A B C} (f : B -> list C) (g : A -> list B) (l : list A) :
  flat_map f (flat_map g l) = flat_map (fun x => flat_map f (g x)) l.
Proof.
  induction l as [|x l IH]; [done|]. cbn [flat_map].
  by rewrite flat_map_app, IH.
Qed.

Lemma mangle_flat_map s csn : mangle s csn = flat_map (mangle_char csn) s.
Proof.
  unfold mangle. change (py "_") with ["_"%char].
  rewrite replace_char_flat_map. destruct csn; cbn [negb].
  - apply flat_map_ext. intros c. unfold mangle_char.
    by destruct (Ascii.eqb "_" c).
  - unfold replace_uppercase_letters. rewrite flat_map_flat_map.
    apply flat_map_ext. intros c. unfold mangle_char.
    destruct (Ascii.eqb "_" c); [done|]. cbn. by rewrite app_nil_r.
Qed.

Lemma lower_not_glob_char c : isupper c = true -> is_glob_char (lower c) = false.
Proof. by destruct c as [[] [] [] [] [] [] [] []]. Qed.

Lemma mangle_char_not_glob csn c x :
  is_glob_char c = false -> x ∈ mangle_char csn c -> is_glob_char x = false.
Proof.
  intros Hc. unfold mangle_char.
  destruct (Ascii.eqb "_" c).
  { cbn. rewrite !elem_of_cons, elem_of_nil. by intros [->|[->|[]]]. }
  destruct (negb csn && isupper c) eqn:E.
  - apply andb_true_iff in E as [_ E]. cbn.
    rewrite !elem_of_cons, elem_of_nil.
    intros [->|[->|[]]]; [done | by apply lower_not_glob_char].
  - by intros ->%list_elem_of_singleton.
Qed.

Lemma mangle_not_glob csn s :
  Forall (fun c => is_glob_char c = false) s ->
  Forall (fun c => is_glob_char c = false) (mangle s csn).
Proof.
  rewrite mangle_flat_map. induction 1 as [|c s Hc _ IH]; [done|].
  cbn [flat_map]. apply Forall_app. split; [|done].
  apply Forall_forall. intros x. by apply mangle_char_not_glob.
Qed.

Lemma not_glob_chars (s : str) :
  Forall (fun c => is_glob_char c = false) s ->
  ("*"%char ∉ s) /\ ("?"%char ∉ s) /\ ("["%char ∉ s).
Proof.
  rewrite Forall_forall. intros H.
  split_and!; intros Hin; by apply H in Hin.
Qed.

Lemma no_double_star l1 l2 :
  ("*"%char ∉ l1) -> ("*"%char ∉ l2) -> ~ occurs (py "**") (l1 ++ "*"%char :: l2).
Proof.
  intros H1 H2. induction l1 as [|c l1 IH].
  - cbn [app]. rewrite occurs_cons. intros [[k Hk] | H].
    + cbn in Hk. injection Hk as ->. apply H2. by left.
    + apply H2. apply (occurs_elem_of _ _ _ H). by left.
  - apply not_elem_of_cons in H1 as [Hc H1].
    rewrite <- app_comm_cons, occurs_cons. intros [[k Hk] | H]; [|by apply IH].
    cbn in Hk. by injection Hk as -> _.
Qed.

Lemma simple_pattern_plain (s : str) :
  ("["%char ∉ s) -> ("*"%char ∉ s) -> simple_pattern s = true.
Proof.
  intros H1 H2. unfold simple_pattern.
  rewrite bool_decide_eq_false_2 by done.
  rewrite count_no_occurrence; [done | done |].
  intros H. apply H2. apply (occurs_elem_of _ _ _ H). by left.
Qed.

Lemma simple_pattern_one_star (l1 l2 : str) :
  ("["%char ∉ l1) -> ("["%char ∉ l2) -> ("*"%char ∉ l1) -> ("*"%char ∉ l2) ->
  simple_pattern (l1 ++ "*"%char :: l2) = true.
Proof.
  intros H1 H2 H3 H4. unfold simple_pattern.
  rewrite bool_decide_eq_false_2.
  - rewrite count_no_occurrence; [done | done | by apply no_double_star].
  - rewrite elem_of_app, elem_of_cons. intros [?|[?|?]]; done.
Qed.

Lemma glob_plain xml_path (pattern : str) :
  Forall (fun c => is_glob_char c = false) pattern ->
  exists files, glob xml_path pattern = Some files
    /\ forall name, name ∈ files <-> name ∈ xml_path /\ name = pattern.
Proof.
  intros (H1 & H2 & H3)%not_glob_chars. unfold glob.
  rewrite simple_pattern_plain by done. unfold has_wildcard.
  rewrite !bool_decide_eq_false_2 by done. cbn [orb].
  eexists. split; [done|]. intros name. case_bool_decide.
  - rewrite list_elem_of_singleton. split; [by intros -> | by intros [_ ->]].
  - rewrite elem_of_nil. split; [done | by intros [? ->]].
Qed.

Lemma glob_one_star xml_path (l1 l2 : str) :
  Forall (fun c => is_glob_char c = false) l1 ->
  Forall (fun c => is_glob_char c = false) l2 ->
  exists files, glob xml_path (l1 ++ "*"%char :: l2) = Some files
    /\ forall name, name ∈ files <->
         name ∈ xml_path /\ exists mid, name = l1 ++ mid ++ l2.
Proof.
  intros (H1 & H2 & H3)%not_glob_chars (H4 & H5 & H6)%not_glob_chars.
  unfold glob. rewrite simple_pattern_one_star by done. unfold has_wildcard.
  rewrite (bool_decide_eq_true_2 ("*"%char ∈ _)).
  2:{ rewrite elem_of_app, elem_of_cons. tauto. }
  cbn [orb]. eexists. split; [done|]. intros name.
  rewrite list_elem_of_In, List.filter_In, <- list_elem_of_In.
  by rewrite fnmatch_one_star.
Qed.

(** X2: for a header whose stem holds none of the characters [*], [?]
    and [[], [get_xml_files] returns exactly the entries of the directory
    that are named class<stem>.xml or struct<stem>.xml, or <stem>_8h,
    anything, .xml, for the mangled stem. *)
Theorem get_xml_files_of_plain_stem
    (header_name : str) (xml_path : list str) (case_sense_names : bool) :
  let fnwe := mangle (path_stem header_name) case_sense_names in
  Forall (fun c => is_glob_char c = false) (path_stem header_name) ->
  exists files,
    get_xml_files header_name xml_path case_sense_names = Some files
    /\ forall name,
         name ∈ files <->
         name ∈ xml_path
         /\ (name = py "class" ++ fnwe ++ py ".xml"
             \/ name = py "struct" ++ fnwe ++ py ".xml"
             \/ exists mid, name = fnwe ++ py "_8h" ++ mid ++ py ".xml").
Proof.
  intros fnwe Hstem. unfold get_xml_files. fold fnwe.
  assert (Forall (fun c => is_glob_char c = false) fnwe) as Hm
    by by apply mangle_not_glob.
  destruct (glob_plain xml_path (py "class" ++ fnwe ++ py ".xml"))
    as (f1 & -> & Hf1).
  { apply Forall_app. split; [by repeat constructor|].
    apply Forall_app. split; [done | by repeat constructor]. }
  destruct (glob_plain xml_path (py "struct" ++ fnwe ++ py ".xml"))
    as (f2 & -> & Hf2).
  { apply Forall_app. split; [by repeat constructor|].
    apply Forall_app. split; [done | by repeat constructor]. }
  destruct (glob_one_star xml_path (fnwe ++ py "_8h") (py ".xml"))
    as (f3 & Hg & Hf3).
  { apply Forall_app. split; [done | by repeat constructor]. }
  { by repeat constructor. }
  replace (fnwe ++ py "_8h*.xml")
    with ((fnwe ++ py "_8h") ++ "*"%char :: py ".xml")
    by by rewrite <- app_assoc.
  rewrite Hg. eexists. split; [done|]. intros name.
  rewrite !elem_of_app, Hf1, Hf2, Hf3.
  split.
  - intros [[? ->] | [[? ->] | [? [mid ->]]]]; (split; [done|]).
    + by left.
    + right. by left.
    + right. right. exists mid. by rewrite <- app_assoc.
  - intros [Hin [-> | [-> | [mid ->]]]].
    + by left.
    + right. by left.
    + right. right. split; [done|]. exists mid. by rewrite <- app_assoc.

Qed.

Lemma get_xml_files_of_plain_stem_witness :
  exists files,
    get_xml_files (py "kernel/TimeStepping.hpp") [py "index.xml"] false
      = Some files
    /\ forall name,
         name ∈ files <->
         name ∈ [py "index.xml"]
         /\ (name = py "class" ++ py "_time_stepping" ++ py ".xml"
             \/ name = py "struct" ++ py "_time_stepping" ++ py ".xml"
             \/ exists mid,
                  name = py "_time_stepping" ++ py "_8h" ++ mid ++ py ".xml").
Proof.
  apply (get_xml_files_of_plain_stem (py "kernel/TimeStepping.hpp")
           [py "index.xml"] false).
  by repeat constructor.
Defined.

(** ** Further properties of the mangling *)

Lemma raise_case_lower c : isupper c = true -> raise_case (lower c) = c.
Proof. by destruct c as [[] [] [] [] [] [] [] []]. Qed.

Lemma lower_not_underscore c : isupper c = true -> lower c <> "_"%char.
Proof. by destruct c as [[] [] [] [] [] [] [] []]. Qed.

Lemma lower_inj c1 c2 :
  isupper c1 = true -> isupper c2 = true -> lower c1 = lower c2 -> c1 = c2.
Proof.
  intros H1 H2 H. by rewrite <- (raise_case_lower c1), <- (raise_case_lower c2), H.
Qed.

(** The three ways a character is mangled. *)
Lemma mangle_char_cases csn c :
  (c = "_"%char /\ mangle_char csn c = py "__")
  \/ (c <> "_"%char /\ isupper c = true /\ csn = false
      /\ mangle_char csn c = ["_"%char; lower c])
  \/ (c <> "_"%char /\ mangle_char csn c = [c]).
Proof.
  unfold mangle_char. destruct (Ascii.eqb_spec "_" c) as [<-|Hc].
  - by left.
  - right. destruct csn, (isupper c); cbn; auto.
Qed.

(** X3: the mangling of stems is injective, with either value of
    [case_sense_names]: two headers with different stems are never looked
    up under the same file names. *)
Theorem mangle_inj (case_sense_names : bool) (stem1 stem2 : str) :
  mangle stem1 case_sense_names = mangle stem2 case_sense_names ->
  stem1 = stem2.
Proof.
  rewrite !mangle_flat_map. revert stem2.
  induction stem1 as [|c1 s1 IH]; intros [|c2 s2]; cbn [flat_map].
  - done.
  - intros H. symmetry in H. apply app_eq_nil in H as [H _].
    by destruct (mangle_char_cases case_sense_names c2)
      as [[_ E]|[(_ & _ & _ & E)|[_ E]]]; rewrite E in H.
  - intros H. apply app_eq_nil in H as [H _].
    by destruct (mangle_char_cases case_sense_names c1)
      as [[_ E]|[(_ & _ & _ & E)|[_ E]]]; rewrite E in H.
  - destruct (mangle_char_cases case_sense_names c1)
      as [[Hc1 E1]|[(N1 & U1 & _ & E1)|[N1 E1]]];
    destruct (mangle_char_cases case_sense_names c2)
      as [[Hc2 E2]|[(N2 & U2 & _ & E2)|[N2 E2]]];
    rewrite E1, E2; cbn; intros H.
    + injection H as H. subst c1 c2. f_equal. by apply IH.
    + injection H as H _. by apply lower_not_underscore in U2.
    + injection H as H _. congruence.
    + injection H as H _. symmetry in H. by apply lower_not_underscore in U1.
    + injection H as H1 H. f_equal; [by apply lower_inj | by apply IH].
    + injection H as H _. congruence.
    + injection H as H _. congruence.
    + injection H as H _. congruence.
    + injection H as -> H. f_equal. by apply IH.
Qed.

Lemma mangle_inj_witness : py "Time_Stepping" = py "Time_Stepping".
Proof.
  apply (mangle_inj false (py "Time_Stepping") (py "Time_Stepping")).
  reflexivity.
Defined.

(** X4: the output of [replace_uppercase_letters] holds no uppercase
    letter, and is longer than the input by the number of uppercase
    letters of the input. *)
Theorem replace_uppercase_letters_output (filename : str) :
  Forall (fun c => isupper c = false) (replace_uppercase_letters filename)
  /\ length (replace_uppercase_letters filename)
     = (length filename + length (List.filter isupper filename))%nat.
Proof.
  split; [apply replace_uppercase_letters_no_upper|].
  unfold replace_uppercase_letters.
  induction filename as [|c s IH]; [done|].
  cbn [flat_map List.filter]. rewrite length_app, IH.
  destruct (isupper c); simpl; lia.
Qed.

(** ** Further properties of the configuration parser *)

Lemma split_char_fields d s :
  Forall (fun field => (d ∉ field) /\ forall c, c ∈ field -> c ∈ s)
         (split_from [d] 0 s).
Proof.
  induction s as [|x s IH].
  - repeat constructor; [apply not_elem_of_nil | done].
  - assert (Forall (fun field => (d ∉ field) /\ forall c, c ∈ field -> c ∈ x :: s)
              (split_from [d] 0 s)) as IH'.
    { eapply Forall_impl; [exact IH|]. intros f [? H]. split; [done|].
      intros c Hc. right. by apply H. }
    destruct (Ascii.eqb_spec d x) as [<-|Hx].
    + change (d :: s) with ([d] ++ s) at 2. rewrite split_from_match by done.
      constructor; [|done]. split; [apply not_elem_of_nil | by intros c ?%elem_of_nil].
    + rewrite split_from_nomatch
        by (rewrite startswith_char; by apply Ascii.eqb_neq).
      destruct (split_from [d] 0 s) as [|piece rest] eqn:Es.
      { by apply split_from_nonempty in Es. }
      apply Forall_cons in IH' as [[Hp Hin] Hrest].
      constructor; [|done]. split.
      * rewrite not_elem_of_cons. split; [done | done].
      * intros c [->|Hc]%elem_of_cons; [by left | by apply Hin].
Qed.

Lemma split_char_two_fields d s :
  0 < count [d] s ->
  exists lhs value fields,
    split_from [d] 0 s = lhs :: value :: fields /\ (d ∉ lhs).
Proof.
  intros (pre & t & -> & Hpre & _)%first_char_split.
  rewrite split_char_first by done.
  destruct (split_from [d] 0 t) as [|value fields] eqn:E.
  { by apply split_from_nonempty in E. }
  by exists pre, value, fields.
Qed.

Lemma split_ws_go_tokens (Q : ascii -> Prop) cur s :
  Forall Q s ->
  (forall x, cur = Some x ->
     x <> [] /\ Forall (fun c => isspace c = false /\ Q c) x) ->
  Forall (fun t => t <> [] /\ Forall (fun c => isspace c = false /\ Q c) t)
         (split_ws_go cur s).
Proof.
  intros Hs. revert cur. induction Hs as [|c s Hc _ IH]; intros cur Hcur.
  - cbn. destruct cur as [x|]; cbn; [|done].
    destruct (Hcur x eq_refl) as [Hne Hx].
    repeat constructor.
    + intros E. apply Hne. by rewrite <- (reverse_involutive x), E.
    + by apply Forall_reverse.
  - cbn [split_ws_go]. destruct (isspace c) eqn:E.
    + apply Forall_app. split; [|by apply IH].
      destruct cur as [x|]; cbn; [|done].
      destruct (Hcur x eq_refl) as [Hne Hx].
      repeat constructor.
      * intros E'. apply Hne. by rewrite <- (reverse_involutive x), E'.
      * by apply Forall_reverse.
    + apply IH. intros x [= <-]. split; [done|].
      constructor; [done|]. destruct cur as [y|]; cbn; [|done].
      by apply Hcur.
Qed.

Lemma split_ws_tokens (Q : ascii -> Prop) s :
  Forall Q s ->
  Forall (fun t => t <> [] /\ Forall (fun c => isspace c = false /\ Q c) t)
         (split_ws s).
Proof. intros Hs. by apply split_ws_go_tokens. Qed.

Lemma config_line_plain_entries st d st' :
  (newline ∉ d) -> well_keyed st -> plain_entries st ->
  config_line st d = Ok st' -> plain_entries st'.
Proof.
  intros Hnl Hwk Hst. unfold config_line. change (py "=") with [equals].
  destruct (Z.ltb_spec 0 (count [equals] d)) as [Hc|Hc].
  - destruct (split_char_two_fields equals d Hc)
      as (lhs & value & fields & Hs & Hlhs).
    unfold split. rewrite bind_Ok, Hs. unfold get_item, key_of, get_item.
    cbn [lookup list_lookup]. rewrite !bind_Ok.
    destruct (split_ws lhs) as [|key tokens] eqn:Hk; [done|].
    cbn [first_item]. rewrite bind_Ok. intros [= <-] k v. cbn [entries].
    pose proof (split_char_fields equals d) as Hf. rewrite Hs in Hf.
    apply Forall_cons in Hf as [_ Hf]. apply Forall_cons in Hf as [[Hv Hin] _].
    pose proof (split_ws_tokens (fun c => c <> equals) lhs) as Ht.
    rewrite Hk in Ht. apply Forall_cons in Ht as [Hkey _].
    2:{ apply Forall_forall. by intros c Hc' ->. }
    rewrite lookup_insert. case_decide as Hkk.
    + intros [= <-]. subst k. split; [done|].
      split; [done|]. intros H. by apply Hnl, Hin.
    + apply Hst.
  - destruct (backup st) as [res|] eqn:Hb; [|done].
    destruct (Hwk res Hb) as (key & Hkey & value & Hv).
    rewrite Hkey, bind_Ok, Hv. intros [= <-] k v. cbn [entries].
    rewrite lookup_insert. case_decide as Hkk; [|apply Hst].
    intros [= <-]. subst k. destruct (Hst key value Hv) as [Hk [Hv1 Hv2]].
    split; [done|]. split; rewrite not_elem_of_app; (split; [done|]); [|done].
    apply count_char_zero. pose proof (count_char_nonneg equals d). lia.
Qed.

Lemma run_lines_plain_entries conf st st' :
  Forall (fun d => newline ∉ d) conf -> well_keyed st -> plain_entries st ->
  run_lines st conf = Ok st' -> plain_entries st'.
Proof.
  intros Hconf. revert st.
  induction Hconf as [|d conf Hd _ IH]; intros st Hwk Hst; cbn [run_lines].
  - by intros [= <-].
  - destruct (config_line st d) as [st1|] eqn:E; [|done].
    rewrite bind_Ok. apply IH.
    + by eapply config_line_well_keyed.
    + by eapply config_line_plain_entries.
Qed.

(** *** The lines of a file *)

Lemma rstrip_snoc_space x c : isspace c = true -> rstrip (x ++ [c]) = rstrip x.
Proof.
  intros H. unfold rstrip. rewrite reverse_app. cbn [reverse app].
  change (reverse [c]) with [c]. cbn [app lstrip]. by rewrite H.
Qed.

Lemma strip_line_no_newline body :
  (newline ∉ body) ->
  (newline ∉ strip body) /\ (newline ∉ strip (body ++ [newline])).
Proof.
  intros H. split.
  { unfold strip. by intros ?%elem_of_rstrip%elem_of_lstrip. }
  unfold strip. induction body as [|c body IH]; [done|].
  apply not_elem_of_cons in H as [Hc H]. cbn [app lstrip].
  destruct (isspace c); [by apply IH|].
  rewrite app_comm_cons, rstrip_snoc_space by done.
  intros Hin%elem_of_rstrip. apply elem_of_cons in Hin as [?|?]; done.
Qed.

Lemma readlines_go_lines cur s :
  (newline ∉ cur) ->
  Forall (fun n => exists body,
            (newline ∉ body) /\ (n = body \/ n = body ++ [newline]))
         (readlines_go cur s).
Proof.
  revert cur. induction s as [|c s IH]; intros cur Hcur; cbn [readlines_go].
  - destruct cur; [done|]. repeat constructor.
    exists (reverse (a :: cur)). split; [by rewrite elem_of_reverse | by left].
  - destruct (Ascii.eqb_spec c "010") as [->|Hc].
    + constructor; [|apply IH, not_elem_of_nil].
      exists (reverse cur). split; [by rewrite elem_of_reverse|].
      right. by rewrite reverse_cons.
    + apply IH. rewrite not_elem_of_cons. split; [|done].
      intros E. apply Hc. by rewrite <- E.
Qed.

Lemma kept_lines_no_newline content :
  Forall (fun d => newline ∉ d)
         (strip <$> List.filter is_kept (readlines content)).
Proof.
  apply Forall_fmap, Forall_forall. intros n Hn. cbn.
  apply list_elem_of_In, List.filter_In in Hn as [Hn _].
  apply list_elem_of_In in Hn.
  pose proof (readlines_go_lines [] content (not_elem_of_nil _)) as Hall.
  rewrite Forall_forall in Hall.
  destruct (Hall n Hn) as (body & Hb & [-> | ->]);
    by apply strip_line_no_newline.
Qed.

(** X5: in the mapping that [parse_doxygen_config] returns every key is a
    non-empty token without whitespace and without [=], and no value
    contains a [=] or a newline. *)
Theorem parsed_keys_are_tokens_and_values_plain
    (content : str) (m : gmap str str) :
  parse_doxygen_config content = Ok m ->
  forall k v, m !! k = Some v -> token_key k /\ plain_value v.
Proof.
  unfold parse_doxygen_config, parse_lines.
  destruct (run_lines _ _) as [st|] eqn:E; [|done].
  rewrite bind_Ok. intros [= <-].
  eapply run_lines_plain_entries; [apply kept_lines_no_newline | | | exact E].
  - by intros res.
  - by intros k v.
Qed.

Lemma parsed_keys_are_tokens_and_values_plain_witness :
  token_key (py "INPUT") /\ plain_value (py " srcinclude").
Proof.
  apply (parsed_keys_are_tokens_and_values_plain
           (py "# sources" ++ [newline] ++ py "INPUT = src"
              ++ [newline] ++ py "   include" ++ [newline])
           {[ py "INPUT" := py " srcinclude" ]}).
  - vm_compute. reflexivity.
  - apply lookup_singleton_eq.
Defined.

(** *** Errors *)

Lemma config_line_errors st d e :
  well_keyed st -> config_line st d = Raise e ->
  e = IndexError
  \/ (e = UnboundLocalError /\ backup st = None /\ (equals ∉ d)).
Proof.
  intros Hwk. unfold config_line. change (py "=") with [equals].
  destruct (Z.ltb_spec 0 (count [equals] d)) as [Hc|Hc].
  - destruct (split_char_two_fields equals d Hc)
      as (lhs & value & fields & Hs & Hlhs).
    unfold split. rewrite bind_Ok, Hs. unfold get_item, key_of, get_item.
    cbn [lookup list_lookup]. rewrite !bind_Ok.
    destruct (split_ws lhs) as [|key tokens]; [|done].
    cbn. intros [= <-]. by left.
  - destruct (backup st) as [res|] eqn:Hb.
    + destruct (Hwk res Hb) as (key & Hkey & value & Hv).
      by rewrite Hkey, bind_Ok, Hv.
    + intros [= <-]. right. split_and!; [done..|].
      apply count_char_zero. pose proof (count_char_nonneg equals d). lia.
Qed.

Lemma run_lines_errors conf st e :
  well_keyed st -> run_lines st conf = Raise e ->
  e = IndexError \/ e = UnboundLocalError.
Proof.
  revert st. induction conf as [|d conf IH]; intros st Hwk; cbn [run_lines].
  - done.
  - destruct (config_line st d) as [st1|e1] eqn:E.
    + rewrite bind_Ok. apply IH. by eapply config_line_well_keyed.
    + intros [= <-]. apply config_line_errors in E; [|done]. tauto.
Qed.

(** X6: when [parse_doxygen_config] fails on the text of a file, it is
    with IndexError (a line with [=] and no token before it) or with
    UnboundLocalError (a continuation before any key); the lookups of
    the dictionary never fail. *)
Theorem parse_doxygen_config_errors (content : str) (e : exn) :
  parse_doxygen_config content = Raise e ->
  e = IndexError \/ e = UnboundLocalError.
Proof.
  unfold parse_doxygen_config, parse_lines.
  destruct (run_lines _ _) as [st|e1] eqn:E; [done|].
  intros [= <-]. eapply run_lines_errors; [|exact E]. by intros res.
Qed.

Lemma parse_doxygen_config_errors_witness :
  IndexError = IndexError \/ IndexError = UnboundLocalError.
Proof.
  apply (parse_doxygen_config_errors (py "= NO" ++ [newline])).
  reflexivity.
Defined.

Lemma run_lines_unbound d conf :
  (equals ∉ d) -> run_lines initial_state (d :: conf) = Raise UnboundLocalError.
Proof.
  intros Hd. cbn [run_lines]. unfold config_line. change (py "=") with [equals].
  apply count_char_zero in Hd. by rewrite Hd.
Qed.

(** X7: the lines discarded before the first kept line play no part:
    a file without kept line gives the empty mapping, and a file whose
    first kept line has no [=] once stripped raises UnboundLocalError,
    whatever follows that line. *)
Theorem first_kept_line_decides (ignored : list str) :
  Forall (fun n => is_kept n = false) ignored ->
  parse_lines ignored = Ok initial_state
  /\ forall n more,
       is_kept n = true -> (equals ∉ strip n) ->
       parse_lines (ignored ++ n :: more) = Raise UnboundLocalError.
Proof.
  intros Hign.
  assert (List.filter is_kept ignored = []) as Hnil.
  { induction Hign as [|x l Hx _ IH]; [done|]. cbn. by rewrite Hx. }
  split.
  - unfold parse_lines. by rewrite Hnil.
  - intros n more Hn Hd. unfold parse_lines.
    rewrite List.filter_app, Hnil. cbn [app List.filter]. rewrite Hn.
    cbn [fmap list_fmap]. by apply run_lines_unbound.
Qed.

Lemma first_kept_line_decides_witness :
  parse_lines [py "# doxygen" ++ [newline]; [newline]] = Ok initial_state
  /\ forall n more,
       is_kept n = true -> (equals ∉ strip n) ->
       parse_lines ([py "# doxygen" ++ [newline]; [newline]] ++ n :: more)
         = Raise UnboundLocalError.
Proof.
  apply (first_kept_line_decides [py "# doxygen" ++ [newline]; [newline]]).
  by repeat constructor.
Defined.

(** ** Further properties of the formula escaper *)

Lemma occursb_occurs old s : occursb old s = true <-> occurs old s.
Proof.
  induction s as [|c s IH]; cbn [occursb].
  - rewrite orb_false_r, startswith_prefix, occurs_nil. split.
    + intros [k Hk]. symmetry in Hk. by apply app_eq_nil in Hk as [? _].
    + intros ->. by exists [].
  - by rewrite orb_true_iff, startswith_prefix, IH, occurs_cons.
Qed.

Lemma occursb_false old s : occursb old s = false -> ~ occurs old s.
Proof. rewrite <- occursb_occurs. by intros ->. Qed.

Lemma replace_length old new s :
  old <> [] ->
  Z.of_nat (length (replace old new s))
  = Z.of_nat (length s)
    + count old s * (Z.of_nat (length new) - Z.of_nat (length old)).
Proof.
  intros Hold. induction (Nat.lt_wf_0_projected length s) as [s _ IH].
  destruct s as [|c s].
  { by rewrite replace_nil, count_nil. }
  destruct (startswith old (c :: s)) eqn:E.
  - apply startswith_prefix in E as [t E]. rewrite E.
    rewrite replace_match, count_match, !length_app by done.
    rewrite !Nat2Z.inj_add, IH; [lia|].
    rewrite E, length_app. destruct old; [done | simpl; lia].
  - rewrite replace_nomatch, count_nomatch by done. cbn [length].
    rewrite !Nat2Z.inj_succ, IH; [lia | simpl; lia].
Qed.

Lemma filter_dot_in_xml_formulas_store fs xmlfile content :
  fs !! xmlfile = Some content ->
  filter_dot_in_xml_formulas xmlfile fs
  = Ok (<[xmlfile := replace escaped_dot plain_dot (universal_newlines content)]>
          (delete (path_stem xmlfile ++ py ".tmp") fs)).
Proof.
  intros H. unfold filter_dot_in_xml_formulas, move, read_text, write_text.
  rewrite H, bind_Ok, lookup_insert_eq.
  by rewrite delete_insert_eq.
Qed.

(** X8: [filter_dot_in_xml_formulas] fails with FileNotFoundError when the
    file does not exist, and otherwise changes the file store in two
    places only: the file itself, and the path <stem>.tmp of the working
    directory, where no file is left, whether one existed before or not
    (unless that path is the file itself); every other file is as
    before. *)
Theorem filter_dot_in_xml_formulas_frame
    (fs : gmap str str) (xmlfile : str) :
  let fileout := path_stem xmlfile ++ py ".tmp" in
  match fs !! xmlfile with
  | None => filter_dot_in_xml_formulas xmlfile fs = Raise FileNotFoundError
  | Some content =>
      exists fs',
        filter_dot_in_xml_formulas xmlfile fs = Ok fs'
        /\ (fileout <> xmlfile -> fs' !! fileout = None)
        /\ forall path, path <> xmlfile -> path <> fileout ->
             fs' !! path = fs !! path
  end.
Proof.
  intros fileout. destruct (fs !! xmlfile) as [content|] eqn:E.
  - rewrite (filter_dot_in_xml_formulas_store _ _ _ E). fold fileout.
    eexists. split; [done|]. split.
    + intros Hne. by rewrite lookup_insert_ne, lookup_delete_eq.
    + intros path H1 H2. by rewrite lookup_insert_ne, lookup_delete_ne.
  - unfold filter_dot_in_xml_formulas, read_text. by rewrite E.
Qed.

Lemma filter_dot_in_xml_formulas_frame_witness :
  let fs : gmap str str :=
    {[ py "xml/a.xml" := py "\\dot"; py "a.tmp" := py "notes" ]} in
  exists fs',
    filter_dot_in_xml_formulas (py "xml/a.xml") fs = Ok fs'
    /\ (py "a.tmp" <> py "xml/a.xml" -> fs' !! py "a.tmp" = None)
    /\ forall path, path <> py "xml/a.xml" -> path <> py "a.tmp" ->
         fs' !! path = fs !! path.
Proof.
  exact (filter_dot_in_xml_formulas_frame
           {[ py "xml/a.xml" := py "\\dot"; py "a.tmp" := py "notes" ]}
           (py "xml/a.xml")).
Defined.

Lemma universal_newlines_no_cr s : carriage_return ∉ universal_newlines s.
Proof.
  induction (Nat.lt_wf_0_projected length s) as [s _ IH].
  destruct s as [|c s]; [apply not_elem_of_nil|]. cbn [universal_newlines].
  destruct (Ascii.eqb_spec c "013") as [->|Hc].
  - apply not_elem_of_cons. split; [done|].
    destruct s as [|c' s]; [apply not_elem_of_nil|].
    destruct (Ascii.eqb c' "010"); apply IH; simpl; lia.
  - apply not_elem_of_cons. split; [by intros <- | apply IH; simpl; lia].
Qed.

Lemma replace_no_new_char d old new s :
  old <> [] -> (d ∉ new) -> (d ∉ s) -> d ∉ replace old new s.
Proof.
  intros Hold Hnew. induction (Nat.lt_wf_0_projected length s) as [s _ IH].
  intros Hs. destruct s as [|c s]; [by rewrite replace_nil|].
  destruct (startswith old (c :: s)) eqn:E.
  - apply startswith_prefix in E as [t E]. rewrite E in *.
    rewrite replace_match, not_elem_of_app by done. split; [done|].
    apply IH.
    + rewrite length_app. destruct old; [done | simpl; lia].
    + intros H. apply Hs. apply elem_of_app. by right.
  - rewrite replace_nomatch by done.
    apply not_elem_of_cons in Hs as [Hc Hs].
    apply not_elem_of_cons. split; [done|]. apply IH; [simpl; lia | done].
Qed.

(** X9: on a file whose text, as read, holds no double-backslash-dot
    sequence behind a third backslash, a second run of
    [filter_dot_in_xml_formulas] changes nothing: it returns the file
    store that the first run returned. *)
Theorem filter_dot_in_xml_formulas_twice
    (fs fs' : gmap str str) (xmlfile content : str) :
  fs !! xmlfile = Some content ->
  ~ occurs overescaped_dot (universal_newlines content) ->
  filter_dot_in_xml_formulas xmlfile fs = Ok fs' ->
  filter_dot_in_xml_formulas xmlfile fs' = Ok fs'.
Proof.
  intros H Hno. rewrite (filter_dot_in_xml_formulas_store _ _ _ H).
  intros [= <-].
  rewrite (filter_dot_in_xml_formulas_store _ _
             (replace escaped_dot plain_dot (universal_newlines content)))
    by apply lookup_insert_eq.
  f_equal. rewrite universal_newlines_without_cr.
  2:{ apply replace_no_new_char; [done | compute_done |].
      apply universal_newlines_no_cr. }
  rewrite replace_no_occurrence; [|done|].
  - apply map_eq. intros path.
    destruct (decide (path = xmlfile)) as [->|H1].
    { by rewrite !lookup_insert_eq. }
    rewrite !lookup_insert_ne by done.
    destruct (decide (path = path_stem xmlfile ++ py ".tmp")) as [->|H2].
    { by rewrite !lookup_delete_eq. }
    by rewrite !lookup_delete_ne, lookup_insert_ne, lookup_delete_ne.
  - by apply (no_old_after_replace "\"%char (py "dot")); [| compute_done |].
Qed.

Lemma filter_dot_in_xml_formulas_twice_witness :
  filter_dot_in_xml_formulas (py "a.xml") {[ py "a.xml" := py "$\dot x$" ]}
  = Ok {[ py "a.xml" := py "$\dot x$" ]}.
Proof.
  apply (filter_dot_in_xml_formulas_twice
           {[ py "a.xml" := py "$\\dot x$" ]} {[ py "a.xml" := py "$\dot x$" ]}
           (py "a.xml") (py "$\\dot x$")).
  - vm_compute. reflexivity.
  - by apply occursb_false.
  - vm_compute. reflexivity.
Defined.

(** X10: the content that [filter_dot_in_xml_formulas] writes is shorter
    than the text it read by one character for each occurrence that
    [count] finds of the double-backslash-dot sequence; a file without CR
    and without occurrence is written back as it is. *)
Theorem filter_dot_in_xml_formulas_length
    (fs : gmap str str) (xmlfile content : str) :
  fs !! xmlfile = Some content ->
  exists fs' newlines,
    filter_dot_in_xml_formulas xmlfile fs = Ok fs'
    /\ fs' !! xmlfile = Some newlines
    /\ Z.of_nat (length newlines)
       = Z.of_nat (length (universal_newlines content))
         - count escaped_dot (universal_newlines content)
    /\ ((carriage_return ∉ content) -> ~ occurs escaped_dot content ->
        newlines = content).
Proof.
  intros H. rewrite (filter_dot_in_xml_formulas_store _ _ _ H).
  eexists _, _. split; [done|]. split; [apply lookup_insert_eq|]. split.
  - rewrite replace_length by done.
    change (Z.of_nat (length plain_dot)) with 4.
    change (Z.of_nat (length escaped_dot)) with 5. lia.
  - intros Hcr Hno. rewrite universal_newlines_without_cr by done.
    by apply replace_no_occurrence.
Qed.

Lemma filter_dot_in_xml_formulas_length_witness :
  exists fs' newlines,
    filter_dot_in_xml_formulas (py "a.xml")
      {[ py "a.xml" := py "\\dot q = \\dot v" ]} = Ok fs'
    /\ fs' !! py "a.xml" = Some newlines
    /\ Z.of_nat (length newlines)
       = Z.of_nat (length (universal_newlines (py "\\dot q = \\dot v")))
         - count escaped_dot (universal_newlines (py "\\dot q = \\dot v"))
    /\ ((carriage_return ∉ py "\\dot q = \\dot v") ->
        ~ occurs escaped_dot (py "\\dot q = \\dot v") ->
        newlines = py "\\dot q = \\dot v").
Proof.
  apply (filter_dot_in_xml_formulas_length
           {[ py "a.xml" := py "\\dot q = \\dot v" ]} (py "a.xml")).
  apply lookup_singleton_eq.
Defined.

(** ** Further properties of the math normalizer *)

Lemma occurrences_cons d c s :
  occurrences d (c :: s)
  = ((if Ascii.eqb d c then 1 else 0) + occurrences d s)%nat.
Proof. unfold occurrences. cbn [List.filter]. by destruct (Ascii.eqb d c). Qed.

Lemma occurrences_zero d s : occurrences d s = 0%nat <-> d ∉ s.
Proof.
  rewrite <- count_char_zero, count_char_occurrences. lia.
Qed.

(** What a replacement without [d] does to the number of [d]. *)
Lemma occurrences_replace d old new s :
  old <> [] -> (d ∉ new) ->
  Z.of_nat (occurrences d (replace old new s))
  = Z.of_nat (occurrences d s) - count old s * Z.of_nat (occurrences d old).
Proof.
  intros Hold Hnew%occurrences_zero.
  induction (Nat.lt_wf_0_projected length s) as [s _ IH].
  destruct s as [|c s].
  { rewrite replace_nil, count_nil by done. lia. }
  destruct (startswith old (c :: s)) eqn:E.
  - apply startswith_prefix in E as [t E]. rewrite E.
    rewrite replace_match, count_match, !occurrences_app, Hnew by done.
    rewrite Nat2Z.inj_add, IH; [lia|].
    rewrite E, length_app. destruct old; [done | simpl; lia].
  - rewrite replace_nomatch, count_nomatch, !occurrences_cons by done.
    rewrite !Nat2Z.inj_add, IH; [lia | simpl; lia].
Qed.

Lemma count_nonneg old s : old <> [] -> 0 <= count old s.
Proof.
  intros Hold. induction (Nat.lt_wf_0_projected length s) as [s _ IH].
  destruct s as [|c s]; [by rewrite count_nil|].
  destruct (startswith old (c :: s)) eqn:E.
  - apply startswith_prefix in E as [t E]. rewrite E, count_match by done.
    assert (0 <= count old t); [|lia]. apply IH.
    rewrite E, length_app. destruct old; [done | simpl; lia].
  - rewrite count_nomatch by done. apply IH. simpl. lia.
Qed.

Lemma math_role_no_dollar mid : (dollar ∉ mid) -> dollar ∉ math_role mid.
Proof.
  intros H. unfold math_role. rewrite !elem_of_app. intros [Hin|[Hin|Hin]].
  - by vm_compute in Hin; repeat (apply elem_of_cons in Hin as [?|Hin]; [done|]);
      apply elem_of_nil in Hin.
  - by apply elem_of_rstrip, elem_of_lstrip in Hin.
  - by apply list_elem_of_singleton in Hin.
Qed.

Lemma find_and_replace_math_dollars content :
  (occurrences dollar (find_and_replace_math content)
     <= occurrences dollar content)%nat
  /\ ((2 <= occurrences dollar content)%nat ->
      (occurrences dollar (find_and_replace_math content) + 2
         <= occurrences dollar content)%nat).
Proof.
  destruct (decide (2 <= occurrences dollar content)%nat) as [H2|H2].
  - assert (occurrences dollar (find_and_replace_math content) + 2
            <= occurrences dollar content)%nat; [|lia].
    destruct (first_char_split dollar content) as (pre & t & -> & Hpre & Hc).
    { rewrite count_char_occurrences. lia. }
    destruct (first_char_split dollar t) as (mid & rest & -> & Hmid & _).
    { rewrite count_char_occurrences in Hc. lia. }
    rewrite find_and_replace_math_first_pair by done.
    pose proof (occurrences_replace dollar (dollar :: mid ++ [dollar])
                  (math_role mid) rest ltac:(done)
                  (math_role_no_dollar mid Hmid)) as Hr.
    pose proof (count_nonneg (dollar :: mid ++ [dollar]) rest ltac:(done)).
    rewrite !occurrences_app, !occurrences_cons, !occurrences_app,
      !occurrences_cons, Ascii.eqb_refl.
    pose proof (math_role_no_dollar mid Hmid) as Hrole.
    apply occurrences_zero in Hpre, Hmid, Hrole.
    rewrite occurrences_cons, occurrences_app, occurrences_cons,
      Ascii.eqb_refl, Hmid in Hr.
    change (occurrences dollar []) with 0%nat in Hr.
    rewrite Hpre, Hmid, Hrole. lia.
  - split; [|lia]. rewrite find_and_replace_math_unchanged; [done|].
    rewrite count_char_occurrences. lia.
Qed.

(** X11: a call of [find_and_replace_math] never adds a [$]; on a string
    with two or more [$] it removes at least two; so [n] successive calls
    on a string with at most [2n+1] characters [$] leave at most one [$],
    and the result is a string that a further call returns unchanged. *)
Theorem find_and_replace_math_iterated (content : str) (n : nat) :
  (occurrences dollar (find_and_replace_math content)
     <= occurrences dollar content)%nat
  /\ ((2 <= occurrences dollar content)%nat ->
      (occurrences dollar (find_and_replace_math content) + 2
         <= occurrences dollar content)%nat)
  /\ ((occurrences dollar content <= 2 * n + 1)%nat ->
      (occurrences dollar (Nat.iter n find_and_replace_math content) <= 1)%nat
      /\ find_and_replace_math (Nat.iter n find_and_replace_math content)
         = Nat.iter n find_and_replace_math content).
Proof.
  destruct (find_and_replace_math_dollars content) as [H1 H2].
  split; [done|]. split; [done|]. intros Hn.
  assert ((occurrences dollar (Nat.iter n find_and_replace_math content) <= 1
           \/ occurrences dollar (Nat.iter n find_and_replace_math content)
              + 2 * n <= occurrences dollar content)%nat) as Hb.
  { clear Hn. induction n as [|n IH]; [right; simpl; lia|].
    rewrite Nat.iter_succ.
    destruct (find_and_replace_math_dollars
                (Nat.iter n find_and_replace_math content)) as [Ha Hb].
    destruct (decide (2 <= occurrences dollar
                (Nat.iter n find_and_replace_math content))%nat); lia. }
  assert (occurrences dollar (Nat.iter n find_and_replace_math content) <= 1)%nat
    as Hle by lia.
  split; [done|]. apply find_and_replace_math_unchanged.
  rewrite count_char_occurrences. lia.
Qed.

Lemma find_and_replace_math_iterated_witness :
  (occurrences dollar
     (Nat.iter 2 find_and_replace_math (py "$a$, $b$ and $c")) <= 1)%nat
  /\ find_and_replace_math
       (Nat.iter 2 find_and_replace_math (py "$a$, $b$ and $c"))
     = Nat.iter 2 find_and_replace_math (py "$a$, $b$ and $c").
Proof.
  apply (find_and_replace_math_iterated (py "$a$, $b$ and $c") 2).
  vm_compute. lia.
Defined.

(** ** Further properties of the compound info extractor *)

Lemma charref_ascii_only s : ascii_only s -> flat_map charref s = s.
Proof.
  induction 1 as [|c s Hc _ IH]; [done|]. cbn [flat_map]. rewrite IH.
  unfold charref. by destruct (N.ltb_spec (code c) 128); [|lia].
Qed.

(** X12: on a compound node whose brief descriptions hold ASCII text in
    their first para, [get_xml_compound_infos] raises KeyError without
    [kind] attribute, AssertionError with that attribute when the
    compoundname children or the briefdescription children are not
    exactly one, and otherwise returns the text of the name, the kind,
    and as description the text of the first para of the brief
    description with four spaces behind every newline, math-normalised
    (the empty string without para).  It raises nothing else. *)
Theorem get_xml_compound_infos_result (compound : element) :
  (forall brief, brief ∈ findall compound (py "briefdescription") ->
     ascii_only (para_text brief)) ->
  match attrib_of compound !! py "kind" with
  | None => get_xml_compound_infos compound = Raise KeyError
  | Some kind =>
      match findall compound (py "compoundname"),
            findall compound (py "briefdescription") with
      | [name], [brief] =>
          get_xml_compound_infos compound
          = Ok (text_of name, kind, brief_description brief)
      | _, _ => get_xml_compound_infos compound = Raise AssertionError
      end
  end.
Proof.
  intros Hascii. unfold get_xml_compound_infos.
  destruct (attrib_of compound !! py "kind") as [kind|]; [|done].
  rewrite bind_Ok.
  destruct (findall compound (py "compoundname")) as [|name [|name' names]];
    [done | | done].
  destruct (findall compound (py "briefdescription")) as [|brief [|brief' descr]];
    [done | | done].
  cbn [length Nat.eqb assert_]. rewrite !bind_Ok. unfold get_item.
  cbn [lookup list_lookup]. rewrite !bind_Ok.
  specialize (Hascii brief ltac:(left)).
  unfold brief_description, para_text in *.
  destruct (find_child brief (py "para")) as [content|]; [|done].
  do 3 f_equal. unfold tostring_text. rewrite charref_ascii_only by done.
  symmetry. by apply (replace_split_join [newline] ltac:(done)).
Qed.

Lemma get_xml_compound_infos_result_witness :
  get_xml_compound_infos
    (Element (py "compounddef") {[ py "kind" := py "class" ]} None
       [Element (py "compoundname") ∅ (Some (py "Model")) [] None;
        Element (py "briefdescription") ∅ None
          [Element (py "para") ∅ (Some (py "state $ x $" ++ [newline] ++ py "of the "))
             [Element (py "ref") ∅ (Some (py "system")) [] None] None]
          None] None)
  = Ok (Some (py "Model"), py "class",
        brief_description
          (Element (py "briefdescription") ∅ None
             [Element (py "para") ∅ (Some (py "state $ x $" ++ [newline] ++ py "of the "))
                [Element (py "ref") ∅ (Some (py "system")) [] None] None]
             None)).
Proof.
  refine (get_xml_compound_infos_result
    (Element (py "compounddef") {[ py "kind" := py "class" ]} None
       [Element (py "compoundname") ∅ (Some (py "Model")) [] None;
        Element (py "briefdescription") ∅ None
          [Element (py "para") ∅ (Some (py "state $ x $" ++ [newline] ++ py "of the "))
             [Element (py "ref") ∅ (Some (py "system")) [] None] None]
          None] None) _).
  intros brief Hin. vm_compute in Hin.
  apply list_elem_of_singleton in Hin as ->.
  unfold ascii_only. vm_compute. by repeat constructor.
Defined.

Example get_xml_compound_infos_indents :
  get_xml_compound_infos
    (Element (py "compounddef") {[ py "kind" := py "class" ]} None
       [Element (py "compoundname") ∅ (Some (py "Model")) [] None;
        Element (py "briefdescription") ∅ None
          [Element (py "para") ∅ (Some (py "state $ x $" ++ [newline] ++ py "of the "))
             [Element (py "ref") ∅ (Some (py "system")) [] None] None]
          None] None)
  = Ok (Some (py "Model"), py "class",
        py "state :math:`x`" ++ [newline] ++ py "    of the system").
Proof. by vm_compute. Qed.

(** ** Further properties of the placeholder substitutor *)

Lemma occurs_app_l x y s : occurs (x ++ y) s -> occurs x s.
Proof. intros (a & b & ->). exists a, (y ++ b). by rewrite <- app_assoc. Qed.

Lemma placeholder_nonempty i : placeholder i <> [].
Proof. by rewrite placeholder_shape. Qed.

Lemma substitute_formula_lines source_lines entry :
  substitute_formula source_lines entry
  = (fun line => substitute_in_line line entry) <$> source_lines.
Proof. done. Qed.

Lemma foldl_substitute_formula entries source_lines :
  foldl substitute_formula source_lines entries
  = (fun line => foldl substitute_in_line line entries) <$> source_lines.
Proof.
  revert source_lines. induction entries as [|e entries IH]; intros lines.
  - cbn. by rewrite list_fmap_id.
  - cbn [foldl]. rewrite IH, substitute_formula_lines, <- list_fmap_compose.
    done.
Qed.

Lemma replace_latex_lines_rewrite dicts source_lines :
  replace_latex_lines dicts source_lines = rewrite_line dicts <$> source_lines.
Proof.
  unfold replace_latex_lines, rewrite_line. revert source_lines.
  induction dicts as [|d dicts IH]; intros lines.
  - cbn. by rewrite list_fmap_id.
  - cbn [foldl]. rewrite IH, foldl_substitute_formula, <- list_fmap_compose.
    done.
Qed.

Lemma substitute_in_line_no_placeholder line entry :
  ~ occurs (py "FORMULA") line -> substitute_in_line line entry = line.
Proof.
  intros H. unfold substitute_in_line. rewrite replace_in_line_inserted.
  apply replace_no_occurrence; [apply placeholder_nonempty|].
  intros Ho. apply H. unfold placeholder in Ho. by apply occurs_app_l in Ho.
Qed.

Lemma rewrite_line_no_placeholder dicts line :
  ~ occurs (py "FORMULA") line -> rewrite_line dicts line = line.
Proof.
  intros H. unfold rewrite_line.
  induction dicts as [|d dicts IH]; [done|]. cbn [foldl].
  assert (foldl substitute_in_line line d = line) as ->; [|done].
  clear IH. induction d as [|e d IH]; [done|]. cbn [foldl].
  by rewrite substitute_in_line_no_placeholder.
Qed.

(** X13: the substitution loops of [replace_latex] rewrite each line on
    its own, by the formulas in their order: the lines keep their number
    and their order, and a line in which the text FORMULA does not occur
    is kept as it is, whatever the dictionaries hold. *)
Theorem replace_latex_lines_linewise
    (dicts : list (list (Z * formula_record))) (source_lines : list str) :
  replace_latex_lines dicts source_lines = rewrite_line dicts <$> source_lines
  /\ length (replace_latex_lines dicts source_lines) = length source_lines
  /\ forall (n : nat) line,
       source_lines !! n = Some line ->
       ~ occurs (py "FORMULA") line ->
       replace_latex_lines dicts source_lines !! n = Some line.
Proof.
  rewrite replace_latex_lines_rewrite. split; [done|].
  split; [apply length_fmap|].
  intros n line Hn Hline. rewrite list_lookup_fmap, Hn. cbn.
  by rewrite rewrite_line_no_placeholder.
Qed.

Lemma replace_latex_lines_linewise_witness :
  replace_latex_lines
    [[(3, {| latex := py "\alpha"; label := py "inline" |})]]
    [py "def f():" ++ [newline]; py "    FORMULA3_" ++ [newline]] !! 0%nat
  = Some (py "def f():" ++ [newline]).
Proof.
  apply (replace_latex_lines_linewise
           [[(3, {| latex := py "\alpha"; label := py "inline" |})]]
           [py "def f():" ++ [newline]; py "    FORMULA3_" ++ [newline]]).
  - reflexivity.
  - by apply occursb_false.
Defined.

Section same_token.
Context (f u : ascii) (Hfu : f <> u) (body : str).
Context (Hf : f ∉ body).

Let token : str := f :: body ++ [u].

(** An occurrence of the token that starts in [before] ends in it. *)
Lemma token_starts_inside c before rest :
  head rest = Some f ->
  startswith token ((c :: before) ++ rest) = true ->
  exists tail, c :: before = token ++ tail.
Proof.
  intros Hrest [k Hk]%startswith_prefix. symmetry in Hk.
  apply app_eq_inv in Hk as [(k' & Ha & Hk) | (k' & Ha & Hk)].
  - destruct k' as [|c' k'].
    + exists []. by rewrite Ha, !app_nil_r.
    + exfalso. destruct rest as [|r rest]; [done|].
      injection Hrest as ->. injection Hk as <- _.
      change (f :: body ++ [u] = c :: before ++ f :: k') in Ha.
      injection Ha as _ Ha.
      assert (f ∈ body ++ [u]) as Hin.
      { rewrite Ha. apply elem_of_app. right. by left. }
      apply elem_of_app in Hin as [Hin | Hin]; [done|].
      by apply list_elem_of_singleton in Hin.
  - by exists k'.
Qed.

Lemma replace_before_token new before rest :
  head rest = Some f ->
  replace token new (before ++ rest)
  = replace token new before ++ replace token new rest.
Proof.
  intros Hrest. assert (token <> []) as Hnil by done.
  induction (Nat.lt_wf_0_projected length before) as [before _ IH].
  destruct before as [|c before].
  { by rewrite (replace_nil _ Hnil). }
  destruct (startswith token ((c :: before) ++ rest)) eqn:E.
  - destruct (token_starts_inside c before rest Hrest E) as [tail Htail].
    rewrite Htail, <- !app_assoc, !(replace_match _ Hnil), <- app_assoc.
    f_equal. apply IH. rewrite Htail, length_app. unfold token. simpl. lia.
  - rewrite <- app_comm_cons in E |- *.
    rewrite (replace_nomatch _ Hnil) by done.
    rewrite (replace_nomatch _ Hnil new c before).
    + cbn [app]. f_equal. apply IH. simpl. lia.
    + apply startswith_false. apply startswith_false in E.
      intros [k Hk]. apply E. exists (k ++ rest).
      by rewrite app_comm_cons, Hk, <- app_assoc.
Qed.

Lemma replace_at_token new before after :
  replace token new (before ++ token ++ after)
  = replace token new before ++ new ++ replace token new after.
Proof.
  rewrite replace_before_token by done.
  by rewrite (replace_match token ltac:(done)).
Qed.
End same_token.

Lemma replace_at_placeholder i new before after :
  replace (placeholder i) new (before ++ placeholder i ++ after)
  = replace (placeholder i) new before ++ new
      ++ replace (placeholder i) new after.
Proof.
  rewrite !placeholder_shape.
  apply (replace_at_token "F" "_" ltac:(done)).
  intros H. by apply placeholder_body in H as [? _].
Qed.

(** X14: where a line holds the placeholder of an inline formula, the
    substitution puts the latex text of the formula with every backslash
    doubled, and rewrites the text before and the text behind that
    occurrence as it would on their own. *)
Theorem inline_formula_replaces_its_placeholder
    (form : Z) (text before after : str) :
  let entry := (form, {| latex := text; label := py "inline" |}) in
  substitute_in_line (before ++ placeholder form ++ after) entry
  = substitute_in_line before entry
      ++ replace (py "\") (py "\\") text
      ++ substitute_in_line after entry.
Proof.
  intros entry. unfold substitute_in_line, replace_in_line. cbn.
  apply replace_at_placeholder.
Qed.

(** *** Block formulas *)

Lemma splitlines_go_one_line cur s :
  Forall (fun c => is_linebreak c = false) s ->
  cur <> [] \/ s <> [] ->
  splitlines_go cur s = [reverse cur ++ s].
Proof.
  intros Hs. revert cur. induction Hs as [|c s Hc _ IH]; intros cur Hne.
  - destruct Hne as [Hne|Hne]; [|done]. destruct cur; [done|].
    cbn [splitlines_go]. by rewrite app_nil_r.
  - cbn [splitlines_go]. rewrite Hc. rewrite IH by (by left).
    rewrite reverse_cons, <- app_assoc. done.
Qed.

Lemma concat_splitlines_go cur s :
  concat (splitlines_go cur s) = reverse cur ++ s.
Proof.
  revert cur. induction (Nat.lt_wf_0_projected length s) as [s _ IH].
  intros cur. destruct s as [|c s]; cbn [splitlines_go].
  - destruct cur; [done|]. cbn [concat]. by rewrite !app_nil_r.
  - destruct (is_linebreak c).
    + destruct s as [|c' s].
      * cbn [concat]. by rewrite app_nil_r, reverse_cons.
      * destruct (Ascii.eqb c "013" && Ascii.eqb c' "010"); cbn [concat].
        -- rewrite IH by (simpl; lia). change (reverse []) with (@nil ascii).
           rewrite !reverse_cons, <- !app_assoc. done.
        -- rewrite IH by (simpl; lia). change (reverse []) with (@nil ascii).
           rewrite !reverse_cons, <- !app_assoc. done.
    + rewrite IH by (simpl; lia). by rewrite reverse_cons, <- app_assoc.
Qed.

Lemma textwrap_indent_no_prefix text : textwrap_indent text [] = text.
Proof.
  unfold textwrap_indent, splitlines_keepends.
  pose proof (concat_splitlines_go [] text) as Hc.
  change (reverse [] ++ text) with text in Hc. rewrite <- Hc at 2. clear Hc.
  induction (splitlines_go [] text) as [|line lines IH]; [done|].
  cbn [flat_map concat]. rewrite IH. by destruct (strip line).
Qed.

Lemma textwrap_indent_one_line text prefix :
  Forall (fun c => is_linebreak c = false) text -> strip text <> [] ->
  textwrap_indent text prefix = prefix ++ text.
Proof.
  intros Hl Hs. unfold textwrap_indent, splitlines_keepends.
  rewrite splitlines_go_one_line; [|done|].
  - change (reverse [] ++ text) with text. cbn [flat_map].
    rewrite app_nil_r. by destruct (strip text).
  - right. by intros ->.
Qed.

Lemma spaces_isspace n : Forall (fun c => isspace c = true) (List.repeat " "%char n).
Proof. induction n; by constructor. Qed.

Lemma spaces_no_F n : "F"%char ∉ List.repeat " "%char n.
Proof. induction n as [|n IH]; [apply not_elem_of_nil|]. by apply not_elem_of_cons. Qed.

Lemma indent_of_placeholder_line n i after :
  (length (List.repeat " "%char n ++ placeholder i ++ after)
   - length (lstrip (List.repeat " "%char n ++ placeholder i ++ after)))%nat = n.
Proof.
  rewrite lstrip_spaces by apply spaces_isspace.
  rewrite placeholder_shape. rewrite <- !app_comm_cons, lstrip_nonspace by done.
  rewrite length_app, repeat_length. lia.
Qed.

(** X15: for a formula that is not inline, on a line made of [n] spaces,
    the placeholder and a rest, the placeholder is replaced by the
    formula indented by [n] spaces with [textwrap_indent], behind the [n]
    spaces of the line; a formula of one non-blank line thus starts
    behind [2n] spaces. *)
Theorem block_formula_is_indented_by_the_line_indent
    (form : Z) (formula formula_type after : str) (n : nat) :
  formula_type <> py "inline" ->
  let spaces := List.repeat " "%char n in
  let text := textwrap_indent formula spaces in
  replace_in_line (placeholder form) formula formula_type
    (spaces ++ placeholder form ++ after)
  = spaces ++ text ++ replace (placeholder form) text after
  /\ (Forall (fun c => is_linebreak c = false) formula ->
      strip formula <> [] ->
      text = spaces ++ formula).
Proof.
  intros Htype spaces text. split.
  - unfold replace_in_line. rewrite bool_decide_eq_false_2 by done.
    unfold spaces at 1 2. rewrite indent_of_placeholder_line.
    fold spaces text. rewrite replace_at_placeholder. f_equal.
    rewrite <- (app_nil_r spaces) at 1. rewrite placeholder_shape.
    rewrite replace_before_first by apply spaces_no_F.
    by rewrite replace_nil, app_nil_r.
  - intros Hl Hs. by apply textwrap_indent_one_line.
Qed.

Lemma block_formula_is_indented_by_the_line_indent_witness :
  replace_in_line (placeholder 7) (py "x = 1") (py "block")
    (List.repeat " "%char 2 ++ placeholder 7 ++ [newline])
  = List.repeat " "%char 2 ++ textwrap_indent (py "x = 1") (List.repeat " "%char 2)
      ++ replace (placeholder 7)
           (textwrap_indent (py "x = 1") (List.repeat " "%char 2)) [newline]
  /\ (Forall (fun c => is_linebreak c = false) (py "x = 1") ->
      strip (py "x = 1") <> [] ->
      textwrap_indent (py "x = 1") (List.repeat " "%char 2)
      = List.repeat " "%char 2 ++ py "x = 1").
Proof.
  apply (block_formula_is_indented_by_the_line_indent
           7 (py "x = 1") (py "block") [newline] 2).
  discriminate.
Defined.

Example block_formula_example :
  replace_in_line (placeholder 7) (py "x = 1") (py "block")
    (py "  FORMULA7_" ++ [newline])
  = py "    x = 1" ++ [newline].
Proof. by vm_compute. Qed.

(** X16: on a line without leading whitespace a formula of any label is
    substituted as an inline one: the placeholder is replaced by the
    formula text as it is. *)
Theorem unindented_line_takes_formula_verbatim
    (idf formula formula_type line : str) :
  lstrip line = line ->
  replace_in_line idf formula formula_type line = replace idf formula line.
Proof.
  intros H. unfold replace_in_line. case_bool_decide; [done|].
  by rewrite H, Nat.sub_diag, textwrap_indent_no_prefix.
Qed.

Lemma unindented_line_takes_formula_verbatim_witness :
  replace_in_line (placeholder 7) (py "x = 1") (py "block") (py "see FORMULA7_")
  = replace (placeholder 7) (py "x = 1") (py "see FORMULA7_").
Proof.
  apply (unindented_line_takes_formula_verbatim
           (placeholder 7) (py "x = 1") (py "block") (py "see FORMULA7_")).
  reflexivity.
Defined.
